(** * Annotation store and session layer of the flatmap server

    A shallow embedding of [mapserver/annotator.py]: the [AnnotationStore]
    class (an SQLite database with an [annotations] and a [features] table),
    the process-wide session registry, the [__authenticated] decorator and
    the routes that matter for authentication and bulk export. *)

From Stdlib Require Import ZArith String Ascii List Bool Lia.
From Stdlib Require Import Sorting.Sorted Sorting.Permutation.
From stdpp Require Import base option list gmap strings pretty.
Import ListNotations.

Local Open Scope string_scope.
Local Open Scope Z_scope.

(** ** Python values

    Everything the code handles arrives as JSON or is built from JSON: a
    Python [None] is [JNull], a [dict] is [JObj].  A [dict] keeps its keys in
    insertion order, which is the order [json.dumps] writes them in, so it is
    an association list. Floats do not occur in the model. *)

#[warnings="-register-all"]
Inductive json : Type :=
| JNull
| JBool (b : bool)
| JNum (n : Z)
| JStr (s : string)
| JArr (items : list json)
| JObj (members : list (string * json)).

Abbreviation dict := (list (string * json)).

(** Python truthiness, as used by [if x] and [x and y]. *)
Definition truthy (v : json) : bool :=
  match v with
  | JNull => false
  | JBool b => b
  | JNum n => negb (n =? 0)
  | JStr s => negb (String.eqb s EmptyString)
  | JArr l => match l with [] => false | _ => true end
  | JObj m => match m with [] => false | _ => true end
  end.

(** [isinstance(v, dict)] *)
Definition is_dict (v : json) : bool :=
  match v with JObj _ => true | _ => false end.

Fixpoint dict_lookup (d : dict) (k : string) : option json :=
  match d with
  | [] => None
  | (k', v) :: d' => if String.eqb k k' then Some v else dict_lookup d' k
  end.

(** [d.get(k, default)] *)
Definition dict_get (d : dict) (k : string) (default : json) : json :=
  match dict_lookup d k with Some v => v | None => default end.

Fixpoint dict_remove (d : dict) (k : string) : dict :=
  match d with
  | [] => []
  | (k', v) :: d' =>
      if String.eqb k k' then dict_remove d' k else (k', v) :: dict_remove d' k
  end.

(** [d.pop(k, None)]: the value (or [None]) and the dict without [k]. *)
Definition dict_pop (d : dict) (k : string) : json * dict :=
  (dict_get d k JNull, dict_remove d k).

(** [d[k] = v]: an existing key keeps its place, a new one goes last. *)
Fixpoint dict_set (d : dict) (k : string) (v : json) : dict :=
  match d with
  | [] => [(k, v)]
  | (k', v') :: d' =>
      if String.eqb k k' then (k', v) :: d' else (k', v') :: dict_set d' k v
  end.

(** [d.update(e)] *)
Definition dict_update (d e : dict) : dict :=
  fold_left (fun acc kv => dict_set acc (fst kv) (snd kv)) e d.

(** ** [json.dumps]

    The default encoder: [", "] and [": "] separators, [ensure_ascii].  A
    character outside [' '..'~'], a quote or a backslash is escaped; the
    characters of a [string] are read as code points below 256. *)

Definition hex_digit (n : N) : ascii :=
  ascii_of_N (if (n <? 10)%N then 48 + n else 87 + n)%N.

Definition dquote : string := String (ascii_of_N 34) EmptyString.

Definition escape_char (c : ascii) : string :=
  let n := N_of_ascii c in
  if (n =? 34)%N then "\" +:+ dquote
  else if (n =? 92)%N then "\\"
  else if (n =? 10)%N then "\n"
  else if (n =? 13)%N then "\r"
  else if (n =? 9)%N then "\t"
  else if (n =? 8)%N then "\b"
  else if (n =? 12)%N then "\f"
  else if ((32 <=? n) && (n <=? 126))%N then String c EmptyString
  else "\u00" +:+ String (hex_digit (n / 16)) (String (hex_digit (n mod 16)) EmptyString).

Fixpoint escape_string (s : string) : string :=
  match s with
  | EmptyString => EmptyString
  | String c s' => escape_char c +:+ escape_string s'
  end.

Definition quote (s : string) : string := dquote +:+ escape_string s +:+ dquote.

Fixpoint join (sep : string) (l : list string) : string :=
  match l with
  | [] => EmptyString
  | [x] => x
  | x :: l' => x +:+ sep +:+ join sep l'
  end.

Fixpoint json_dumps (v : json) : string :=
  match v with
  | JNull => "null"
  | JBool true => "true"
  | JBool false => "false"
  | JNum n => pretty n
  | JStr s => quote s
  | JArr l => "[" +:+ join ", " (map json_dumps l) +:+ "]"
  | JObj m =>
      "{" +:+ join ", " (map (fun kv => quote (fst kv) +:+ ": " +:+ json_dumps (snd kv)) m)
          +:+ "}"
  end.

(** ** SQLite values and ordering

    Every column the code binds a payload value to has TEXT affinity.  The
    [sqlite3] module binds a [str] as text and an [int] (a [bool] is one) as
    a 64-bit integer, which the column stores as its decimal text; an [int]
    outside 64 bits, a [list] or a [dict] cannot be bound and the module
    raises before the statement runs.  [None] binds NULL, but the guards of
    [add_annotation] never let a [None] reach a binding, so the model has no
    NULL text. *)

Definition sql_text (v : json) : option string :=
  match v with
  | JStr s => Some s
  | JNum n =>
      if (- 2 ^ 63 <=? n) && (n <? 2 ^ 63) then Some (pretty n) else None
  | JBool true => Some "1"
  | JBool false => Some "0"
  | JNull | JArr _ | JObj _ => None
  end.

(** Text compares bytewise (the BINARY collation): [String.compare]. *)
Definition text_lt (s t : string) : Prop := String.compare s t = Lt.
Definition text_le (s t : string) : Prop := String.compare s t <> Gt.

(** ** The two tables *)

Record annotation_row := {
  a_rowid : Z;
  a_resource : string;
  a_item : string;
  a_created : string;
  a_orcid : string;
  a_creator : dict;        (* the value whose [json.dumps] text is stored *)
  a_annotation : dict      (* likewise *)
}.

(** [deleted] and [annotation] hold annotation row identifiers, stored as
    their decimal text and compared with [rowid] as numbers. *)
Record feature_row := {
  f_resource : string;
  f_item : string;
  f_deleted : option Z;
  f_annotation : Z;
  f_feature : dict
}.

Record database := {
  annotations_table : list annotation_row;
  features_table : list feature_row
}.

(** [ANNOTATION_STORE_SCHEMA] run on a new file. *)
Definition empty_database : database :=
  {| annotations_table := []; features_table := [] |}.

(** A connection sees its own uncommitted changes: [working] is what its
    statements read and write, [committed] what the file holds.  [commit]
    copies the first to the second; a rollback, and closing the connection,
    drop what [working] has beyond [committed]. *)
Record connection := {
  committed : database;
  working : database
}.

Definition connect (file : database) : connection :=
  {| committed := file; working := file |}.

(** ** Failures of the store

    A statement either runs or raises.  Which statement fails, and with what,
    is decided outside the program (a lock held by another process, a full
    disk, a damaged file), so a call of [add_annotation] takes it as an
    argument.  SQLite undoes the statement that failed.  For most errors it
    leaves the transaction open with the effects of the statements before
    it; for some (a full disk, an I/O error, no memory) it may have to roll
    the whole transaction back, after which the connection is in autocommit
    mode again and reads what the file holds.  Which of the two SQLite did is
    part of the failure: [cancelled]. *)

Inductive statement := InsertAnnotation | UpdateFeatures | InsertFeature | Commit.

Inductive exception_class :=
| AttributeError | TypeError | OverflowError | ProgrammingError
| OperationalError | DatabaseError | IntegrityError.

Record exception := {
  exc_class : exception_class;
  exc_message : string            (* [str(err)] *)
}.

Record fault := {
  failing : statement;
  raised : exception;
  cancelled : bool                (* SQLite rolled the transaction back *)
}.

Definition statement_eqb (s t : statement) : bool :=
  match s, t with
  | InsertAnnotation, InsertAnnotation | UpdateFeatures, UpdateFeatures
  | InsertFeature, InsertFeature | Commit, Commit => true
  | _, _ => false
  end.

(** [cursor.execute(st)]: [Some f] when the statement fails, with [f]. *)
Definition execute (ft : option fault) (st : statement) : option fault :=
  match ft with
  | Some f => if statement_eqb (failing f) st then Some f else None
  | None => None
  end.

Definition is_operational (e : exception) : bool :=
  match exc_class e with OperationalError => true | _ => false end.

(** What a method call does: return a value or let an exception out. *)
Inductive outcome :=
| Returned (result : dict)
| Raised (e : exception).

(** ** Queries as SQLite runs them *)

(** [order by] with a comparison: a stable insertion sort.  Rows that the
    comparison does not separate stay in the order of the table; SQLite
    promises no order for them. *)
Fixpoint insert_by {A} (leb : A -> A -> bool) (x : A) (l : list A) : list A :=
  match l with
  | [] => [x]
  | y :: l' => if leb x y then x :: l else y :: insert_by leb x l'
  end.

Definition order_by {A} (leb : A -> A -> bool) (l : list A) : list A :=
  fold_right (insert_by leb) [] l.

(** [order by created desc, creator]: [creator] is the column holding the
    serialized creator record. *)
Definition created_desc_creator (a b : annotation_row) : bool :=
  match String.compare (a_created b) (a_created a) with
  | Lt => true
  | Gt => false
  | Eq => String.leb (json_dumps (JObj (a_creator a))) (json_dumps (JObj (a_creator b)))
  end.

(** [max(rowid) + 1], the identifier SQLite gives a new row. *)
Definition next_rowid (t : list annotation_row) : Z :=
  fold_right Z.max 0 (map a_rowid t) + 1.

(** [annotations as a left join features as f on a.rowid = f.annotation] *)
Definition left_join (ans : list annotation_row) (fs : list feature_row)
  : list (annotation_row * option feature_row) :=
  flat_map (fun a =>
    match List.filter (fun f => f_annotation f =? a_rowid a) fs with
    | [] => [(a, None)]
    | matched => map (fun f => (a, Some f)) matched
    end) ans.

Definition is_null {A} (v : option A) : bool :=
  match v with None => true | Some _ => false end.

(** [update features set deleted=? where deleted is null and resource=? and item=?] *)
Definition supersede (id : Z) (resource item : string) (f : feature_row) : feature_row :=
  if is_null (f_deleted f) && String.eqb (f_resource f) resource
     && String.eqb (f_item f) item
  then {| f_resource := f_resource f; f_item := f_item f; f_deleted := Some id;
          f_annotation := f_annotation f; f_feature := f_feature f |}
  else f.

(** ** class AnnotationStore *)

(** [self.__db]: the open connection, [None] once closed. *)
Record AnnotationStore := { db : option connection }.

(** [AnnotationStore(db_path)]: the file is created with the schema when it
    does not exist. *)
Definition open_store (file : option database) : AnnotationStore :=
  {| db := Some (connect (match file with Some d => d | None => empty_database end)) |}.

Definition close (self : AnnotationStore) : AnnotationStore := {| db := None |}.

(** What the file holds: uncommitted work is not part of it. *)
Definition stored (self : AnnotationStore) : option database :=
  match db self with Some c => Some (committed c) | None => None end.

Definition with_working (c : connection) (w : database) : AnnotationStore :=
  {| db := Some {| committed := committed c; working := w |} |}.

Definition annotation_matches (resource_id item_id : option string)
    (row : annotation_row) : bool :=
  match resource_id with
  | None => true
  | Some r =>
      String.eqb (a_resource row) r
      && match item_id with
         | None => true
         | Some i => String.eqb (a_item row) i
         end
  end.

Definition annotation_record (row : annotation_row) : dict :=
  dict_update
    [("annotationId", JNum (a_rowid row));
     ("resource", JStr (a_resource row));
     ("item", JStr (a_item row));
     ("created", JStr (a_created row));
     ("creator", JObj (a_creator row))]
    (a_annotation row).

Definition annotations (self : AnnotationStore)
    (resource_id item_id : option string) : list dict :=
  match db self with
  | None => []
  | Some c =>
      map annotation_record
        (order_by created_desc_creator
           (List.filter (annotation_matches resource_id item_id)
              (annotations_table (working c))))
  end.

Definition annotation (self : AnnotationStore) (annotation_id : Z) : dict :=
  match db self with
  | None => []
  | Some c =>
      let joined :=
        left_join (annotations_table (working c)) (features_table (working c)) in
      let selected :=
        List.filter (fun af =>
            (a_rowid (fst af) =? annotation_id)
            && match snd af with
               | None => true
               | Some f => is_null (f_deleted f)
               end) joined in
      match selected with                              (* [fetchone()] *)
      | [] => []
      | (a, f) :: _ =>
          dict_update
            [("annotationId", JNum annotation_id);
             ("resource", JStr (a_resource a));
             ("item", JStr (a_item a));
             ("created", JStr (a_created a));
             ("creator", JObj (a_creator a));
             ("feature", match f with
                         | Some f => JObj (f_feature f)
                         | None => JNull
                         end)]
            (a_annotation a)
      end
  end.

(** [except sqlite3.OperationalError as err: result['error'] = str(err)];
    any other exception leaves the method.  The method itself issues no
    rollback: the connection keeps what the transaction did so far, [w],
    unless SQLite cancelled the transaction, and then it is back at what
    the file holds. *)
Definition on_exception (f : fault) (result : dict) (c : connection)
    (w : database) : outcome * AnnotationStore :=
  let w := if cancelled f then committed c else w in
  if is_operational (raised f)
  then (Returned (dict_set result "error" (JStr (exc_message (raised f)))),
        with_working c w)
  else (Raised (raised f), with_working c w).

Definition insert_annotation (w : database) (row : annotation_row) : database :=
  {| annotations_table := annotations_table w ++ [row];
     features_table := features_table w |}.

Definition update_features (w : database) (id : Z) (resource item : string) : database :=
  {| annotations_table := annotations_table w;
     features_table := map (supersede id resource item) (features_table w) |}.

Definition insert_feature (w : database) (row : feature_row) : database :=
  {| annotations_table := annotations_table w;
     features_table := features_table w ++ [row] |}.

(** The body of the [try] once the four texts are bound. *)
Definition transaction (ft : option fault) (c : connection)
    (resource item created orcid : string) (creator annotation : dict)
    (feature : json) : outcome * AnnotationStore :=
  let w := working c in
  match execute ft InsertAnnotation with
  | Some failed => on_exception failed [] c w
  | None =>
      let id := next_rowid (annotations_table w) in
      let w := insert_annotation w
                 {| a_rowid := id; a_resource := resource; a_item := item;
                    a_created := created; a_orcid := orcid;
                    a_creator := creator; a_annotation := annotation |} in
      let result := [("annotationId", JNum id)] in
      match execute ft UpdateFeatures with
      | Some failed => on_exception failed result c w
      | None =>
          let w := update_features w id resource item in
          let inserted :=
            match feature with
            | JObj members =>
                if truthy feature then
                  match execute ft InsertFeature with
                  | Some failed => inr failed
                  | None =>
                      inl (insert_feature w
                             {| f_resource := resource; f_item := item;
                                f_deleted := None; f_annotation := id;
                                f_feature := members |})
                  end
                else inl w
            | _ => inl w
            end in
          match inserted with
          | inr failed => on_exception failed result c w
          | inl w =>
              match execute ft Commit with
              | Some failed => on_exception failed result c w
              | None => (Returned result, {| db := Some (connect w) |})
              end
          end
      end
  end.

(** The exceptions of the Python side.  Their message texts depend on the
    version of Python and on the value; the ones here are indicative, and no
    result of [add_annotation] contains them. *)
Definition binding_error : exception :=
  {| exc_class := ProgrammingError;
     exc_message := "Error binding parameter: type is not supported" |}.

Definition overflow_error : exception :=
  {| exc_class := OverflowError;
     exc_message := "Python int too large to convert to SQLite INTEGER" |}.

Definition attribute_error : exception :=
  {| exc_class := AttributeError; exc_message := "object has no attribute 'get'" |}.

(** What binding the values raises: the parameters are bound in order, and
    the first that cannot be bound decides. *)
Fixpoint unbound (values : list json) : exception :=
  match values with
  | [] => binding_error
  | v :: values' =>
      match sql_text v with
      | Some _ => unbound values'
      | None => match v with JNum _ => overflow_error | _ => binding_error end
      end
  end.

(** [add_annotation(self, annotation)].  [now] is what
    [datetime.now(tz=timezone.utc).isoformat(timespec='seconds')] gives at the
    call, [ft] the failure of the store during it, if any. *)
Definition add_annotation (self : AnnotationStore) (now : string)
    (ft : option fault) (annotation : dict) : outcome * AnnotationStore :=
  match db self with
  | None => (Returned [("error", JStr "No annotation database...")], self)
  | Some c =>
      let '(created, annotation) := dict_pop annotation "created" in
      let created := match created with JNull => JStr now | _ => created end in
      let '(creator, annotation) := dict_pop annotation "creator" in
      let '(resource_id, annotation) := dict_pop annotation "resource" in
      let '(item_id, annotation) := dict_pop annotation "item" in
      if truthy resource_id && truthy item_id && truthy creator then
        match creator with
        | JObj creator =>
            let orcid := dict_get creator "orcid" JNull in
            if truthy orcid then
              let creator := dict_remove creator "canUpdate" in
              let '(feature, annotation) := dict_pop annotation "feature" in
              match sql_text resource_id, sql_text item_id,
                    sql_text created, sql_text orcid with
              | Some resource, Some item, Some created, Some orcid =>
                  transaction ft c resource item created orcid
                    creator annotation feature
              | _, _, _, _ =>
                  (Raised (unbound [resource_id; item_id; created; orcid]), self)
              end
            else (Returned [], self)
        | _ => (Raised attribute_error, self)       (* [creator.get] *)
        end
      else (Returned [], self)
  end.

(** ** Sessions, the decorator and the routes

    Two things come from outside the module: [uuid.uuid5(uuid.NAMESPACE_URL, _)]
    (a SHA-1 based name hash, rendered as text) and [get_user] of the
    [pennsieve] module, which resolves a key to the user's data or to a
    record with an [error] member. *)

Inductive http_method := GET | POST | HEAD.

(** A response: the status and the JSON its body encodes. *)
Record response := {
  status : Z;
  body : json
}.

(** [flask.request.get_json()]: the value the body holds, which can be any
    JSON, or the HTTP error flask ends the request with when the body is
    not JSON (no JSON content type, text that does not parse). *)
Inductive json_body :=
| body_value (v : json)
| body_error (answer : response).

(** [flask.request]: the method, the query-string arguments, whose values
    are text, and the JSON body. *)
Record request := {
  method : http_method;
  args : gmap string string;
  get_json : json_body
}.

(** The database file of [settings['FLATMAP_ROOT']] ([None]: not yet
    created) and the module-level [__sessions]. *)
Record world := {
  db_file : option database;
  sessions : gmap string dict
}.

Definition forbidden : response :=
  {| status := 403; body := JObj [("error", JStr "forbidden")] |}.

(** [flask.jsonify(v)] *)
Definition jsonify (v : json) : response := {| status := 200; body := v |}.

(** The answer of the server when a view lets an exception out. *)
Definition internal_server_error : response := {| status := 500; body := JNull |}.

(** The [parameters] of the decorator: [flask.request.args] or a JSON
    value. *)
Inductive parameters :=
| from_query (a : gmap string string)
| from_body (v : json).

(** [parameters = ...]: the query string of a GET, the JSON body of a POST,
    [{}] for any other method; [inr] when [get_json()] ends the request. *)
Definition request_parameters (req : request) : parameters + response :=
  match method req with
  | GET => inl (from_query (args req))
  | POST =>
      match get_json req with
      | body_value v => inl (from_body v)
      | body_error answer => inr answer
      end
  | _ => inl (from_body (JObj []))
  end.

(** [parameters.get(name)], [None] where it raises [AttributeError]: of the
    JSON values only a [dict] has a [get]. *)
Definition parameters_get (p : parameters) (name : string) : option json :=
  match p with
  | from_query a => Some (match a !! name with Some s => JStr s | None => JNull end)
  | from_body (JObj members) => Some (dict_get members name JNull)
  | from_body _ => None
  end.

Definition is_post (m : http_method) : bool :=
  match m with POST => true | _ => false end.

Section Server.

Variable uuid5_url : string -> string.
Variable get_user : string -> dict.

Definition __session_key (key : string) : string := uuid5_url key.

Definition __new_session (key : string) (data : dict)
    (sessions : gmap string dict) : string * gmap string dict :=
  let session_key := __session_key key in
  (session_key, <[session_key := data]> sessions).

Definition __session_data (session_key : string)
    (sessions : gmap string dict) : option dict :=
  sessions !! session_key.

(** [__sessions.pop(session_key, None) is not None] *)
Definition __del_session (session_key : string)
    (sessions : gmap string dict) : bool * gmap string dict :=
  (negb (is_null (sessions !! session_key)), delete session_key sessions).

(** A view function, called with [flask.g.update] set by the decorator. *)
Definition view := json -> request -> world -> response * world.

(** The decorator.  An exception ([AttributeError] of a [get] that does not
    exist, [TypeError] of [uuid5] on a name that is no text) ends the
    request with the server's error answer. *)
Definition __authenticated (f : view) (req : request) (w : world)
    : response * world :=
  match request_parameters req with
  | inr answer => (answer, w)
  | inl parameters =>
      match parameters_get parameters "key" with
      | None => (internal_server_error, w)
      | Some JNull => (forbidden, w)
      | Some key =>
          match parameters_get parameters "session" with
          | None => (internal_server_error, w)
          | Some JNull => (forbidden, w)
          | Some session_key =>
              match key with
              | JStr key =>
                  match session_key with
                  | JStr session_key =>
                      if String.eqb session_key (__session_key key) then
                        match __session_data session_key (sessions w) with
                        | Some data =>
                            f (dict_get data "canUpdate" (JBool false)) req w
                        | None => (forbidden, w)
                        end
                      else (forbidden, w)
                  | _ => (forbidden, w)
                  end
              | _ => (internal_server_error, w)
              end
          end
      end
  end.

Definition authenticate (req : request) (w : world) : response * world :=
  match args req !! "key" with
  | Some key =>
      let user_data := get_user key in
      if is_null (dict_lookup user_data "error") then
        let '(session_key, sessions') := __new_session key user_data (sessions w) in
        ({| status := 200;
            body := JObj [("session", JStr session_key); ("data", JObj user_data)] |},
         {| db_file := db_file w; sessions := sessions' |})
      else ({| status := 403; body := JObj user_data |}, w)
  | None => ({| status := 403; body := JObj [("error", JStr "forbidden")] |}, w)
  end.

Definition unauthenticate (req : request) (w : world) : response * world :=
  ({| status := 200; body := JObj [("success", JStr "Unauthenticated")] |}, w).

(** [download]: opens the store (which creates the file if need be), lists
    every annotation, closes the store. *)
Definition download (req : request) (w : world) : response * world :=
  let annotation_store := open_store (db_file w) in
  let annotations := annotations annotation_store None None in
  let closed := close annotation_store in
  (jsonify (JArr (map JObj annotations)),
   {| db_file := stored annotation_store; sessions := sessions w |}).

(** A request carries the text [v] under [name]: in the query string when
    it is a GET, as a member of the JSON object that is its body when it is
    a POST. *)
Definition carries (req : request) (name v : string) : Prop :=
  (method req = GET /\ args req !! name = Some v)
  \/ (method req = POST
      /\ exists members, get_json req = body_value (JObj members)
                         /\ dict_lookup members name = Some (JStr v)).

(** A request passes the gate with [data] when it carries a key and a
    token, the token is the one derived from the key, and the registry holds
    [data] under it. *)
Definition passes_gate (req : request) (w : world) (data : dict) : Prop :=
  exists key token,
    carries req "key" key
    /\ carries req "session" token
    /\ token = __session_key key
    /\ __session_data token (sessions w) = Some data.


End Server.

(** ** Sequences of calls and what a read sees *)

(** One call of [add_annotation]: the clock, the failure of the store during
    the call (if any) and the payload. *)
Record call := {
  at_time : string;
  failure : option fault;
  payload : dict
}.

Definition add_call (self : AnnotationStore) (c : call) : AnnotationStore :=
  snd (add_annotation self (at_time c) (failure c) (payload c)).

Definition add_all (calls : list call) (self : AnnotationStore) : AnnotationStore :=
  fold_left add_call calls self.

(** The rows a statement run through the handle reads. *)
Definition visible (self : AnnotationStore) : database :=
  match db self with
  | Some c => working c
  | None => empty_database
  end.



(** ** Predicates and sample data used by the properties *)

(** What the statements of one call can do to the features table. *)
Inductive features_step (old : list feature_row) : list feature_row -> Prop :=
| step_unchanged : features_step old old
| step_superseded id resource item new :
    (length new <= 1)%nat ->
    Forall (fun f => f_resource f = resource /\ f_item f = item
                     /\ f_deleted f = None /\ f_annotation f = id) new ->
    features_step old (map (supersede id resource item) old ++ new).



(** [TEST_USER] of the module's interface notes. *)
Definition test_user : dict :=
  [("name", JStr "Test User"); ("email", JStr "test@example.org");
   ("orcid", JStr "0000-0002-1825-0097"); ("canUpdate", JBool true)].

Definition point_feature : dict :=
  [("id", JStr "itemA");
   ("geometry", JObj [("type", JStr "Point"); ("coordinates", JArr [JNum 1; JNum 2])]);
   ("properties", JObj [])].

Definition comment_on_itemA : dict :=
  [("resource", JStr "map1"); ("item", JStr "itemA");
   ("creator", JObj test_user); ("comment", JStr "x")].

Definition feature_on_itemA : dict :=
  comment_on_itemA ++ [("feature", JObj point_feature)].

Definition missing_creator : dict :=
  [("resource", JStr "map1"); ("item", JStr "itemA"); ("comment", JStr "x")].

Definition calling (now : string) (annotation : dict) : call :=
  {| at_time := now; failure := None; payload := annotation |}.

(** A feature for itemA, then a comment on itemA without one. *)
Definition superseded_store : AnnotationStore :=
  add_all [calling "2023-05-01T10:00:00+00:00" feature_on_itemA;
           calling "2023-05-01T11:00:00+00:00" comment_on_itemA]
    (open_store None).

(** The disk fills up while the feature row is written, and SQLite rolls
    the transaction back. *)
Definition full_disk_at_feature : fault :=
  {| failing := InsertFeature;
     raised := {| exc_class := OperationalError;
                  exc_message := "database or disk is full" |};
     cancelled := true |}.

(** The file turns out to be damaged while the feature row is written. *)
Definition damaged_file_at_feature : fault :=
  {| failing := InsertFeature;
     raised := {| exc_class := DatabaseError;
                  exc_message := "database disk image is malformed" |};
     cancelled := false |}.

(** Another connection holds a lock on the file when the transaction is to
    be committed: the [commit] fails and the transaction stays open. *)
Definition locked_at_commit : fault :=
  {| failing := Commit;
     raised := {| exc_class := OperationalError;
                  exc_message := "database is locked" |};
     cancelled := false |}.

(** The claim in the words of the specification: a failure of the store
    comes back as an error result and leaves nothing for later reads. *)
Definition failure_is_rolled_back (self : AnnotationStore) (now : string)
    (f : fault) (annotation : dict) : Prop :=
  let '(out, self') := add_annotation self now (Some f) annotation in
  (exists result message,
      out = Returned result /\ dict_lookup result "error" = Some (JStr message))
  /\ annotations self' None None = annotations self None None
  /\ features_table (visible self') = features_table (visible self).

(** What [order by created desc, creator] asks of two neighbours: the later
    [created] first, and for equal [created] the smaller [creator] text. *)
Definition newest_first (a b : annotation_row) : Prop :=
  text_lt (a_created b) (a_created a)
  \/ (a_created a = a_created b
      /\ text_le (json_dumps (JObj (a_creator a))) (json_dumps (JObj (a_creator b)))).

(** Two annotations of itemA with the same [created]: first Zoe's, whose
    orcid is the smaller, then Adam's. *)
Definition zoe : dict :=
  [("name", JStr "Zoe"); ("email", JStr "zoe@example.org");
   ("orcid", JStr "0000-0001-0000-0001")].

Definition adam : dict :=
  [("name", JStr "Adam"); ("email", JStr "adam@example.org");
   ("orcid", JStr "0000-0002-0000-0002")].

Definition comment_by (creator : dict) : dict :=
  [("resource", JStr "map1"); ("item", JStr "itemA");
   ("created", JStr "2023-05-01T10:00:00+00:00");
   ("creator", JObj creator); ("comment", JStr "x")].

Definition tied_store : AnnotationStore :=
  add_all [calling "2023-05-01T10:00:05+00:00" (comment_by zoe);
           calling "2023-05-01T10:00:09+00:00" (comment_by adam)]
    (open_store None).

(** The order in the words of the specification, on the records returned:
    newest first, then by the creator's identifier. *)
Definition text_member (record : dict) (k : string) : string :=
  match dict_get record k JNull with JStr s => s | _ => EmptyString end.

Definition creator_identifier (record : dict) : string :=
  match dict_get record "creator" JNull with
  | JObj creator => text_member creator "orcid"
  | _ => EmptyString
  end.

Definition newest_first_by_identifier (x y : dict) : Prop :=
  text_lt (text_member y "created") (text_member x "created")
  \/ (text_member x "created" = text_member y "created"
      /\ text_le (creator_identifier x) (creator_identifier y)).

(** ** The remaining queries of the store *)

(** [select distinct]: one copy of every value. *)
Fixpoint distinct (l : list string) : list string :=
  match l with
  | [] => []
  | x :: l' =>
      if existsb (String.eqb x) l' then distinct l' else x :: distinct l'
  end.

(** The [items] of [annotated_items]:
    [select distinct item from annotations where resource=? order by item]. *)
Definition resource_items (self : AnnotationStore) (resource_id : string)
  : list string :=
  match db self with
  | None => []
  | Some c =>
      order_by String.leb
        (distinct
           (map a_item
              (List.filter (fun a => String.eqb (a_resource a) resource_id)
                 (annotations_table (working c)))))
  end.

Definition annotated_items (self : AnnotationStore) (resource_id : string) : dict :=
  [("resource", JStr resource_id);
   ("items", JArr (map JStr (resource_items self resource_id)))].








(** ** What a call of [add_annotation] does to the database *)

(** The feature row a call writes for its annotation row. *)
Definition feature_of (row : annotation_row) (members : dict) : feature_row :=
  {| f_resource := a_resource row; f_item := a_item row; f_deleted := None;
     f_annotation := a_rowid row; f_feature := members |}.

(** The members [add_annotation] pops from the payload before it stores
    what is left. *)
Definition popped : list string :=
  ["created"; "creator"; "resource"; "item"; "feature"].

(** A row as [add_annotation] writes it: no [canUpdate] in the creator, none
    of the popped members in the annotation. *)
Definition clean_row (row : annotation_row) : Prop :=
  dict_lookup (a_creator row) "canUpdate" = None
  /\ Forall (fun k => dict_lookup (a_annotation row) k = None) popped.

Definition new_row (w : database) (row : annotation_row) : Prop :=
  a_rowid row = next_rowid (annotations_table w) /\ clean_row row.

(** What the statements of a call have done to the rows the connection
    works on when the call ends: nothing, the annotation row inserted, the
    pair's features marked as well, the new feature row inserted too. *)
Inductive add_effect (w : database) : database -> Prop :=
| effect_none : add_effect w w
| effect_annotation row :
    new_row w row -> add_effect w (insert_annotation w row)
| effect_superseded row :
    new_row w row ->
    add_effect w
      (update_features (insert_annotation w row)
         (a_rowid row) (a_resource row) (a_item row))
| effect_feature row members :
    new_row w row -> members <> [] ->
    add_effect w
      (insert_feature
         (update_features (insert_annotation w row)
            (a_rowid row) (a_resource row) (a_item row))
         (feature_of row members)).

(** Identifiers are 1, 2, ... in the order of the rows; feature rows come in
    the order of the annotations that wrote them, each annotation writing at
    most one; a feature row is of an annotation of the table, and is marked
    deleted only by a later one. *)
Definition identifiers_in_order (d : database) : Prop :=
  map a_rowid (annotations_table d)
  = map Z.of_nat (seq 1 (length (annotations_table d))).

Definition features_in_order (d : database) : Prop :=
  StronglySorted Z.lt (map f_annotation (features_table d))
  /\ Forall (fun f =>
              1 <= f_annotation f <= Z.of_nat (length (annotations_table d))
              /\ match f_deleted f with
                 | Some by_id =>
                     f_annotation f < by_id
                     <= Z.of_nat (length (annotations_table d))
                 | None => True
                 end)
       (features_table d).

Definition well_formed (d : database) : Prop :=
  identifiers_in_order d /\ features_in_order d
  /\ Forall clean_row (annotations_table d).

(** The record [annotation] answers with for a row and for what the join
    gave as its feature. *)
Definition annotation_with_feature (a : annotation_row) (feature : json) : dict :=
  dict_update
    [("annotationId", JNum (a_rowid a));
     ("resource", JStr (a_resource a));
     ("item", JStr (a_item a));
     ("created", JStr (a_created a));
     ("creator", JObj (a_creator a));
     ("feature", feature)]
    (a_annotation a).

(** ** The route that writes *)

(** What a database file holds; a file that does not exist yet is created
    with the empty tables by the first store opened on it. *)
Definition contents (file : option database) : database :=
  match file with Some d => d | None => empty_database end.

(** What [add_annotation] of the routes passes to [flask.jsonify] when the
    session may not update: a tuple, which becomes a JSON array. *)
Definition forbidden_result : json :=
  JArr [JStr (json_dumps (JObj [("error", JStr "forbidden")]));
        JNum 403;
        JObj [("mimetype", JStr "application/json")]].

(** The view [add_annotation] of the routes.  [data] is the [data] member of
    the JSON body ([{}] when it has none), [now] the clock and [ft] the
    failure of the store during the call, as for the method it calls.  The
    store is opened first and closed last; an exception of the method ends
    the view before the [close], and the connection goes with the store. *)
Definition add_annotation_view (now : string) (ft : option fault) (data : dict)
  : view :=
  fun update req w =>
    let annotation_store := open_store (db_file w) in
    if is_post (method req) && truthy update then
      match add_annotation annotation_store now ft data with
      | (Returned result, annotation_store) =>
          (jsonify (JObj result),
           {| db_file := stored annotation_store; sessions := sessions w |})
      | (Raised e, annotation_store) =>
          (internal_server_error,
           {| db_file := stored annotation_store; sessions := sessions w |})
      end
    else
      (jsonify forbidden_result,
       {| db_file := stored annotation_store; sessions := sessions w |}).

(** ** [normalise_identifier] of the map server

    Text is a sequence of bytes here; the function only looks for [':'] and
    ['0'], which in UTF-8 never occur inside another character. *)

(** [s.split(c)]: the parts between the separators, at least one. *)
Fixpoint split_on (c : ascii) (s : string) : list string :=
  match s with
  | EmptyString => [EmptyString]
  | String a s' =>
      if Ascii.eqb a c then EmptyString :: split_on c s'
      else match split_on c s' with
           | [] => [String a EmptyString]
           | part :: parts => String a part :: parts
           end
  end.

(** [s.lstrip(c)] *)
Fixpoint lstrip (c : ascii) (s : string) : string :=
  match s with
  | EmptyString => EmptyString
  | String a s' => if Ascii.eqb a c then lstrip c s' else s
  end.

(** [(s[:-1], s[-1])]; [None] where [s[-1]] raises [IndexError]. *)
Fixpoint init_last (s : string) : option (string * ascii) :=
  match s with
  | EmptyString => None
  | String a s' =>
      match init_last s' with
      | None => Some (EmptyString, a)
      | Some (init, last) => Some (String a init, last)
      end
  end.

(** [s[:-1].lstrip('0') + s[-1]] *)
Definition normalise_part (s : string) : option string :=
  match init_last s with
  | None => None
  | Some (init, last) => Some (lstrip "0"%char init +:+ String last EmptyString)
  end.

(** The list comprehension: the first part that raises ends it. *)
Fixpoint each_part (parts : list string) : option (list string) :=
  match parts with
  | [] => Some []
  | s :: parts' =>
      match normalise_part s with
      | None => None
      | Some t =>
          match each_part parts' with
          | None => None
          | Some ts => Some (t :: ts)
          end
      end
  end.

(** [normalise_identifier(id)]; [None] when it raises. *)
Definition normalise_identifier (id : string) : option string :=
  match each_part (split_on ":"%char id) with
  | None => None
  | Some parts => Some (join ":" parts)
  end.

(** A part as the function leaves it: not empty, and with a leading zero
    only when it is the single character ['0']. *)
Definition normal_part (s : string) : Prop :=
  s <> EmptyString
  /\ forall rest, s = String "0"%char rest -> rest = EmptyString.

(** Whether the character occurs in the text. *)
Fixpoint has_char (c : ascii) (s : string) : bool :=
  match s with
  | EmptyString => false
  | String a s' => Ascii.eqb a c || has_char c s'
  end.

(** ** What a call does to the connection *)

(** A call leaves the connection with the transaction still open on what
    its statements did, or back at what the file holds when SQLite cancelled
    the transaction, or with everything committed. *)
Inductive call_effect (ft : option fault) (c : connection) : connection -> Prop :=
| call_kept w :
    add_effect (working c) w ->
    call_effect ft c {| committed := committed c; working := w |}
| call_cancelled f :
    ft = Some f -> cancelled f = true ->
    call_effect ft c (connect (committed c))
| call_committed w :
    add_effect (working c) w -> call_effect ft c (connect w).

(** What the statements before [st] have done when [st] is reached. *)
Definition done_before (st : statement) (w : database) (row : annotation_row)
    (feature : json) : database :=
  let marked :=
    update_features (insert_annotation w row)
      (a_rowid row) (a_resource row) (a_item row) in
  match st with
  | InsertAnnotation => w
  | UpdateFeatures => insert_annotation w row
  | InsertFeature => marked
  | Commit =>
      match feature with
      | JObj (m :: members) => insert_feature marked (feature_of row (m :: members))
      | _ => marked
      end
  end.

(** The same feature row, up to a [deleted] mark that was null. *)
Definition same_but_marked (old new : feature_row) : Prop :=
  f_resource new = f_resource old /\ f_item new = f_item old
  /\ f_annotation new = f_annotation old /\ f_feature new = f_feature old
  /\ (f_deleted new = f_deleted old \/ f_deleted old = None).

(** [d'] holds what [d] holds and more: the annotation rows of [d] come
    first in [d'], and every feature row of [d] is at its place in [d'],
    changed at most in a mark that was null. *)
Definition grows (d d' : database) : Prop :=
  (exists added, annotations_table d' = (annotations_table d ++ added)%list)
  /\ forall n row,
       features_table d !! n = Some row ->
       exists row', features_table d' !! n = Some row' /\ same_but_marked row row'.

(** A call during which SQLite cancels no transaction. *)
Definition keeps_transaction (c : call) : Prop :=
  match failure c with
  | Some f => cancelled f = false
  | None => True
  end.

Definition calling_with (f : fault) (now : string) (annotation : dict) : call :=
  {| at_time := now; failure := Some f; payload := annotation |}.

(** A feature for itemA that is committed, then a comment on itemA whose
    commit fails on a lock: the mark on the feature row is not committed. *)
Definition pending_mark_store : AnnotationStore :=
  add_all [calling "2023-05-01T10:00:00+00:00" feature_on_itemA;
           calling_with locked_at_commit "2023-05-01T11:00:00+00:00" comment_on_itemA]
    (open_store None).

(** The claim in the words of the specification: a mark that a read through
    the store shows is shown by every later read. *)
Definition mark_is_final (self : AnnotationStore) (calls : list call) : Prop :=
  forall n row id,
    features_table (visible self) !! n = Some row ->
    f_deleted row = Some id ->
    exists row',
      features_table (visible (add_all calls self)) !! n = Some row'
      /\ f_deleted row' = Some id.

(** ** Requests the decorator does not answer with forbidden *)

(** A POST whose body is not JSON or is JSON but no object, or whose key is
    neither absent nor text while a token is given: the decorator raises. *)
Definition malformed (req : request) : bool :=
  is_post (method req)
  && match get_json req with
     | body_error _ => true
     | body_value (JObj members) =>
         match dict_get members "key" JNull, dict_get members "session" JNull with
         | (JNull | JStr _), _ => false
         | _, JNull => false
         | _, _ => true
         end
     | body_value _ => true
     end.

(** What such a request is answered with: the error of [get_json()], or the
    server's error for the exception. *)
Definition failure_answer (req : request) : response :=
  match get_json req with
  | body_error answer => answer
  | body_value _ => internal_server_error
  end.

(** A request without a JSON body: a call of [get_json()] is answered with
    415, unsupported media type. *)
Definition no_json : json_body := body_error {| status := 415; body := JNull |}.

(** A POST of the test user's session, in a world with no database file
    yet, and a view that answers with the flag it was given. *)
Definition post_request : request :=
  {| method := POST; args := ∅;
     get_json := body_value (JObj [("key", JStr "k1"); ("session", JStr "k1")]) |}.

Definition login_request : request :=
  {| method := GET; args := {["key" := "k1"]}; get_json := no_json |}.

(** A POST with its credentials in the query string and none in its body. *)
Definition misplaced_request : request :=
  {| method := POST; args := <["session" := "k1"]> {["key" := "k1"]};
     get_json := body_value (JObj [("data", JObj comment_on_itemA)]) |}.



Definition new_world : world := {| db_file := None; sessions := ∅ |}.

Definition echo_update : view := fun update req w => (jsonify update, w).

(** * Properties *)

(** ** The features table under [add_annotation] *)

(** The guards of [add_annotation], one at a time: [tac] closes the paths
    that leave before the transaction. *)
Ltac through_guards tac :=
  unfold add_annotation;
  match goal with
  | |- context [db ?self] =>
      let Hdb := fresh "Hdb" in
      destruct (db self) as [?c|] eqn:Hdb; [|tac]
  end;
  unfold dict_pop; cbv beta iota zeta;
  match goal with
  | |- context [if ?b then _ else _] => destruct b eqn:?Hpresent; [|tac]
  end;
  match goal with
  | |- context [match ?v with JObj _ => _ | _ => _ end] =>
      destruct v as [| | | | |?creator] eqn:?Hcreator; try tac
  end;
  match goal with
  | |- context [if ?b then _ else _] => destruct b eqn:?Horcid; [|tac]
  end;
  repeat match goal with
  | |- context [match sql_text ?v with Some _ => _ | None => _ end] =>
      destruct (sql_text v) eqn:?Hbound; [|tac]
  end.






(** A row that is marked deleted stays as it is. *)
Lemma features_step_deleted_kept old new n row :
  features_step old new ->
  old !! n = Some row -> f_deleted row <> None -> new !! n = Some row.
Proof.
  intros [|id R I added _ _] Hn Hdel; [exact Hn|].
  apply lookup_app_l_Some. rewrite list_lookup_fmap, Hn. simpl.
  unfold supersede. destruct (f_deleted row); [reflexivity|contradiction].
Qed.

(** ** Payloads the guard turns away *)

Lemma dict_lookup_remove_ne d k k' :
  String.eqb k k' = false ->
  dict_lookup (dict_remove d k') k = dict_lookup d k.
Proof.
  intros Hne. induction d as [|[k0 v] d IH]; simpl; [reflexivity|].
  destruct (String.eqb_spec k' k0) as [->|Hk0]; simpl.
  - rewrite Hne. exact IH.
  - rewrite IH. reflexivity.
Qed.

Lemma dict_get_remove_ne d k k' default :
  String.eqb k k' = false ->
  dict_get (dict_remove d k') k default = dict_get d k default.
Proof. intros Hne. unfold dict_get. rewrite dict_lookup_remove_ne; auto. Qed.

(** C2. A payload whose resource, item or creator is absent or empty, or
    whose creator has no or an empty orcid, is turned away without any
    write: the store is left as it was.  The result of the call is then the
    empty record: no [annotationId], and no [error] either. *)
Theorem invalid_payload_returns_empty (self : AnnotationStore) (c : connection)
    (now : string) (ft : option fault) (annotation : dict) :
  db self = Some c ->
  truthy (dict_get annotation "resource" JNull) = false
  \/ truthy (dict_get annotation "item" JNull) = false
  \/ truthy (dict_get annotation "creator" JNull) = false
  \/ (exists creator, dict_get annotation "creator" JNull = JObj creator
                      /\ truthy (dict_get creator "orcid" JNull) = false) ->
  exists result,
    add_annotation self now ft annotation = (Returned result, self)
    /\ dict_lookup result "error" = None
    /\ dict_lookup result "annotationId" = None.
Proof.
  intros Hc Hbad. exists []. split; [|split; reflexivity].
  unfold add_annotation. rewrite Hc. unfold dict_pop. cbv beta iota zeta.
  rewrite !dict_get_remove_ne by reflexivity.
  destruct Hbad as [H|[H|[H|(creator & Hcr & H)]]].
  - rewrite H. reflexivity.
  - rewrite H, andb_false_r. reflexivity.
  - rewrite H, andb_false_r. reflexivity.
  - rewrite Hcr, H.
    destruct (truthy _ && truthy _ && truthy _); reflexivity.
Qed.

Lemma invalid_payload_returns_empty_witness :
  db (open_store None) = Some (connect empty_database)
  /\ truthy (dict_get missing_creator "creator" JNull) = false
  /\ exists result,
       add_annotation (open_store None) "2023-05-01T10:00:00+00:00" None
         missing_creator = (Returned result, open_store None)
       /\ dict_lookup result "error" = None
       /\ dict_lookup result "annotationId" = None.
Proof.
  split; [reflexivity|]. split; [reflexivity|].
  apply (invalid_payload_returns_empty (open_store None) (connect empty_database)
           "2023-05-01T10:00:00+00:00" None missing_creator);
    [reflexivity|right; right; left; reflexivity].
Defined.

(** A payload that passes the guard, with text where text is bound, on an
    open store that does not fail: the result is the new row's identifier. *)
Lemma valid_payload_returns_id self c now annotation resource item creator orcid :
  db self = Some c ->
  dict_lookup annotation "created" = None ->
  dict_get annotation "resource" JNull = JStr resource ->
  dict_get annotation "item" JNull = JStr item ->
  dict_get annotation "creator" JNull = JObj creator ->
  dict_get creator "orcid" JNull = JStr orcid ->
  resource <> EmptyString -> item <> EmptyString -> orcid <> EmptyString ->
  fst (add_annotation self now None annotation)
  = Returned [("annotationId", JNum (next_rowid (annotations_table (working c))))].
Proof.
  intros Hc Hcreated Hres Hitem Hcreator Horcid Hr Hi Ho.
  assert (Hcr : creator <> []).
  { intros ->. unfold dict_get in Horcid. simpl in Horcid. discriminate. }
  unfold add_annotation. rewrite Hc. unfold dict_pop. cbv beta iota zeta.
  rewrite !dict_get_remove_ne by reflexivity.
  rewrite Hres, Hitem, Hcreator, Horcid.
  unfold dict_get at 1. rewrite Hcreated. simpl.
  apply String.eqb_neq in Hr, Hi, Ho. rewrite Hr, Hi, Ho. simpl.
  destruct creator as [|kv creator]; [contradiction|]. simpl.
  unfold transaction. simpl.
  destruct (dict_get _ "feature" JNull) as [| | | | |[|m ms]]; reflexivity.
Qed.

(** ** The effect of a call *)

Lemma dict_lookup_remove_eq d k : dict_lookup (dict_remove d k) k = None.
Proof.
  induction d as [|[k' v] d IH]; simpl; [reflexivity|].
  destruct (String.eqb k k') eqn:Hk; [exact IH|]. simpl. rewrite Hk. exact IH.
Qed.

Lemma dict_lookup_remove_none d k k' :
  dict_lookup d k = None -> dict_lookup (dict_remove d k') k = None.
Proof.
  intros Hnone. destruct (String.eqb k k') eqn:Hk.
  - apply String.eqb_eq in Hk as ->. apply dict_lookup_remove_eq.
  - rewrite dict_lookup_remove_ne; assumption.
Qed.

Lemma on_exception_db f result c w :
  db (snd (on_exception f result c w))
  = Some {| committed := committed c;
            working := if cancelled f then committed c else w |}.
Proof. unfold on_exception. destruct (is_operational (raised f)); reflexivity. Qed.

Lemma execute_Some ft st f : execute ft st = Some f -> ft = Some f.
Proof.
  unfold execute. destruct ft as [g|]; [|discriminate].
  destruct (statement_eqb (failing g) st); congruence.
Qed.

Lemma call_effect_refl ft c : call_effect ft c c.
Proof. destruct c as [file w]. apply (call_kept ft {| committed := file; working := w |}), effect_none. Qed.

Lemma on_exception_effect ft st f result c w :
  execute ft st = Some f ->
  add_effect (working c) w ->
  exists c', db (snd (on_exception f result c w)) = Some c' /\ call_effect ft c c'.
Proof.
  intros Hft%execute_Some Heffect. rewrite on_exception_db.
  eexists. split; [reflexivity|].
  destruct (cancelled f) eqn:Hcancelled.
  - exact (call_cancelled ft c f Hft Hcancelled).
  - apply call_kept, Heffect.
Qed.

Lemma transaction_call_effect ft c resource item created orcid creator ann feature :
  dict_lookup creator "canUpdate" = None ->
  Forall (fun k => dict_lookup ann k = None) popped ->
  exists c',
    db (snd (transaction ft c resource item created orcid creator ann feature))
    = Some c'
    /\ call_effect ft c c'.
Proof.
  intros Hcreator Hann. unfold transaction.
  set (row := {| a_rowid := next_rowid (annotations_table (working c));
                 a_resource := resource; a_item := item; a_created := created;
                 a_orcid := orcid; a_creator := creator; a_annotation := ann |}).
  assert (Hrow : new_row (working c) row) by (repeat split; assumption).
  destruct (execute ft InsertAnnotation) eqn:Hinsert;
    [eapply on_exception_effect; [exact Hinsert|constructor]|].
  destruct (execute ft UpdateFeatures) eqn:Hupdate;
    [eapply on_exception_effect;
       [exact Hupdate|exact (effect_annotation _ row Hrow)]|].
  pose proof (effect_superseded _ row Hrow) as Hmarked.
  assert (Hend : forall w,
            add_effect (working c) w ->
            exists c',
              db (snd match execute ft Commit with
                      | Some failed =>
                          on_exception failed [("annotationId", JNum (a_rowid row))] c w
                      | None =>
                          (Returned [("annotationId", JNum (a_rowid row))],
                           {| db := Some (connect w) |})
                      end) = Some c'
              /\ call_effect ft c c').
  { intros w Hw. destruct (execute ft Commit) eqn:Hcommit.
    - eapply on_exception_effect; [exact Hcommit|exact Hw].
    - eexists. split; [reflexivity|]. apply call_committed, Hw. }
  destruct feature as [| | | | |members]; simpl; try (apply Hend, Hmarked).
  destruct members as [|m members]; [apply Hend, Hmarked|].
  destruct (execute ft InsertFeature) eqn:Hfeature;
    [eapply on_exception_effect; [exact Hfeature|exact Hmarked]|].
  apply Hend.
  exact (effect_feature _ row (m :: members) Hrow ltac:(discriminate)).
Qed.

(** Every call on an open store leaves it open, in one of the three ways. *)
Lemma add_annotation_call_effect self now ft annotation c :
  db self = Some c ->
  exists c',
    db (snd (add_annotation self now ft annotation)) = Some c'
    /\ call_effect ft c c'.
Proof.
  intros Hc.
  set (left_open := fun s => exists c', db s = Some c' /\ call_effect ft c c').
  change (left_open (snd (add_annotation self now ft annotation))).
  assert (Hsame : left_open self)
    by (exists c; split; [exact Hc|apply call_effect_refl]).
  through_guards ltac:(first [exact Hsame | congruence]).
  assert (Heq : c0 = c) by congruence. subst c0. unfold left_open.
  apply transaction_call_effect.
  - apply dict_lookup_remove_eq.
  - unfold popped. repeat constructor;
      repeat first [apply dict_lookup_remove_eq | apply dict_lookup_remove_none].
Qed.

Lemma add_annotation_closed self now ft annotation :
  db self = None -> snd (add_annotation self now ft annotation) = self.
Proof. intros Hclosed. unfold add_annotation. rewrite Hclosed. reflexivity. Qed.

(** Without a failure, and with one that does not cancel the transaction,
    the rows the store shows afterwards are the effect of the call on the
    rows it showed before. *)
Lemma add_annotation_effect self now ft annotation :
  match ft with Some f => cancelled f = false | None => True end ->
  add_effect (visible self) (visible (snd (add_annotation self now ft annotation))).
Proof.
  intros Hkeeps. destruct (db self) as [c|] eqn:Hdb.
  - destruct (add_annotation_call_effect self now ft annotation c Hdb)
      as (c' & Hdb' & Heffect).
    unfold visible. rewrite Hdb, Hdb'.
    destruct Heffect as [w Hw|f Hf Hcancelled|w Hw]; try exact Hw.
    subst ft. congruence.
  - rewrite add_annotation_closed by exact Hdb. constructor.
Qed.

Lemma add_effect_features_step w w' :
  add_effect w w' -> features_step (features_table w) (features_table w').
Proof.
  intros [|row _|row _|row members _ _]; simpl.
  - apply step_unchanged.
  - apply step_unchanged.
  - rewrite <- (app_nil_r (map _ _)). apply step_superseded; simpl; auto.
  - apply step_superseded; simpl; auto.
Qed.


Lemma max_rowid_seq a n :
  fold_right Z.max 0 (map Z.of_nat (seq a n))
  = match n with O => 0 | S k => Z.of_nat (a + k) end.
Proof.
  revert a. induction n as [|n IH]; intros a; [reflexivity|].
  simpl. rewrite IH. destruct n as [|k]; lia.
Qed.

Lemma next_rowid_in_order d :
  identifiers_in_order d ->
  next_rowid (annotations_table d) = Z.of_nat (S (length (annotations_table d))).
Proof.
  unfold identifiers_in_order, next_rowid. intros ->.
  rewrite max_rowid_seq. destruct (length (annotations_table d)); lia.
Qed.

Lemma StronglySorted_snoc (l : list Z) (x : Z) :
  StronglySorted Z.lt l -> Forall (fun y => y < x) l ->
  StronglySorted Z.lt (l ++ [x]).
Proof.
  induction 1 as [|y l Hsorted IH Hall]; intros Hbelow; simpl.
  - repeat constructor.
  - apply List.Forall_cons_iff in Hbelow as [Hy Hbelow].
    constructor; [apply IH; exact Hbelow|].
    apply List.Forall_app. split; [exact Hall|]. repeat constructor. exact Hy.
Qed.

Lemma supersede_annotation id resource item f :
  f_annotation (supersede id resource item f) = f_annotation f.
Proof. unfold supersede. destruct (_ && _); reflexivity. Qed.

Lemma supersede_deleted id resource item f :
  f_deleted (supersede id resource item f) = f_deleted f
  \/ (f_deleted f = None /\ f_deleted (supersede id resource item f) = Some id).
Proof.
  unfold supersede. destruct (f_deleted f) eqn:Hd; simpl; [left; exact Hd|].
  destruct (_ && _); simpl; [right; split; reflexivity|left; exact Hd].
Qed.

Lemma add_effect_well_formed w w' :
  add_effect w w' -> well_formed w -> well_formed w'.
Proof.
  intros Heffect (Hids & (Hsorted & Hrefs) & Hclean).
  pose proof (next_rowid_in_order w Hids) as Hnext.
  unfold well_formed, identifiers_in_order, features_in_order in *.
  set (n := length (annotations_table w)) in *.
  assert (Hids' : forall row, new_row w row ->
            map a_rowid (annotations_table w ++ [row])
            = map Z.of_nat (seq 1 (length (annotations_table w ++ [row])))).
  { intros row [Hrow _]. rewrite length_app. fold n.
    change (length [row]) with 1%nat.
    rewrite Nat.add_1_r, seq_S, !map_app, <- Hids.
    change (map a_rowid [row]) with [a_rowid row].
    rewrite Hrow, Hnext. reflexivity. }
  assert (Hclean' : forall row, new_row w row ->
            Forall clean_row (annotations_table w ++ [row])).
  { intros row [_ Hrow]. apply List.Forall_app. split; [exact Hclean|].
    constructor; [exact Hrow|constructor]. }
  assert (Hmarked : forall row, new_row w row ->
            StronglySorted Z.lt
              (map f_annotation
                 (map (supersede (a_rowid row) (a_resource row) (a_item row))
                    (features_table w)))
            /\ Forall (fun f =>
                 1 <= f_annotation f <= Z.of_nat n
                 /\ match f_deleted f with
                    | Some by_id => f_annotation f < by_id <= Z.of_nat (S n)
                    | None => True
                    end)
                 (map (supersede (a_rowid row) (a_resource row) (a_item row))
                    (features_table w))).
  { intros row [Hrow _]. split.
    - rewrite List.map_map.
      erewrite List.map_ext; [exact Hsorted|]. intros f. apply supersede_annotation.
    - apply List.Forall_map. eapply List.Forall_impl; [|exact Hrefs].
      intros f [Hf Hd]. rewrite supersede_annotation. split; [exact Hf|].
      destruct (supersede_deleted (a_rowid row) (a_resource row) (a_item row) f)
        as [-> | [_ ->]].
      + destruct (f_deleted f); [lia|exact I].
      + rewrite Hrow, Hnext. lia. }
  assert (Hwiden : forall fs,
            Forall (fun f =>
                 1 <= f_annotation f <= Z.of_nat n
                 /\ match f_deleted f with
                    | Some by_id => f_annotation f < by_id <= Z.of_nat (S n)
                    | None => True
                    end) fs ->
            Forall (fun f =>
                 1 <= f_annotation f <= Z.of_nat (n + 1)
                 /\ match f_deleted f with
                    | Some by_id => f_annotation f < by_id <= Z.of_nat (n + 1)
                    | None => True
                    end) fs).
  { intros fs. apply List.Forall_impl. intros f [Hf Hd]. split; [lia|].
    destruct (f_deleted f); [lia|exact I]. }
  destruct Heffect as [|row Hrow|row Hrow|row members Hrow Hmembers].
  - repeat split; assumption.
  - split; [apply Hids', Hrow|]. split; [|apply Hclean', Hrow].
    split; [exact Hsorted|]. simpl. rewrite length_app. simpl. fold n.
    apply Hwiden. eapply List.Forall_impl; [|exact Hrefs].
    intros f [Hf Hd]. split; [exact Hf|]. destruct (f_deleted f); [lia|exact I].
  - split; [apply Hids', Hrow|]. split; [|apply Hclean', Hrow].
    destruct (Hmarked row Hrow) as [Hs Hr].
    split; [exact Hs|]. simpl. rewrite length_app. simpl. fold n.
    apply Hwiden, Hr.
  - split; [apply Hids', Hrow|]. split; [|apply Hclean', Hrow].
    destruct (Hmarked row Hrow) as [Hs Hr]. destruct Hrow as [Hrow _].
    simpl. rewrite length_app. simpl. fold n. split.
    + rewrite map_app. simpl. apply StronglySorted_snoc; [exact Hs|].
      apply List.Forall_map. eapply List.Forall_impl; [|exact Hr].
      intros f [Hf _]. rewrite Hrow, Hnext. lia.
    + apply List.Forall_app. split; [apply Hwiden, Hr|].
      repeat constructor; simpl; rewrite Hrow, Hnext; lia.
Qed.

Lemma empty_database_well_formed : well_formed empty_database.
Proof. repeat split; simpl; constructor. Qed.


Lemma add_effect_appends w w' :
  add_effect w w' ->
  exists added, annotations_table w' = (annotations_table w ++ added)%list.
Proof.
  intros [|row _|row _|row members _ _]; simpl;
    [exists []; symmetry; apply app_nil_r|eexists; reflexivity..].
Qed.

Lemma features_step_row_kept old new n row :
  features_step old new -> old !! n = Some row ->
  exists row',
    new !! n = Some row'
    /\ f_resource row' = f_resource row /\ f_item row' = f_item row
    /\ f_annotation row' = f_annotation row /\ f_feature row' = f_feature row
    /\ (f_deleted row' = f_deleted row \/ f_deleted row = None).
Proof.
  intros [|id R I added _ _] Hn.
  - exists row. repeat split; auto.
  - exists (supersede id R I row). split.
    + apply lookup_app_l_Some. rewrite list_lookup_fmap, Hn. reflexivity.
    + unfold supersede. destruct (f_deleted row) eqn:Hd; simpl;
        [rewrite Hd; repeat split; auto|].
      destruct (_ && _); simpl; repeat split; auto.
Qed.

(** ** What a sequence of calls keeps *)

Lemma call_effect_both (P : database -> Prop) :
  (forall w w', add_effect w w' -> P w -> P w') ->
  forall ft c c',
    call_effect ft c c' ->
    P (committed c) /\ P (working c) -> P (committed c') /\ P (working c').
Proof.
  intros Hstep ft c c' [w Hw|f _ _|w Hw] [Hfile Hseen]; simpl; eauto.
Qed.

Lemma add_all_preserves (P : connection -> Prop) :
  (forall ft c c', call_effect ft c c' -> P c -> P c') ->
  forall calls self c,
    db self = Some c -> P c ->
    exists c', db (add_all calls self) = Some c' /\ P c'.
Proof.
  intros Hstep calls. induction calls as [|call calls IH]; intros self c Hdb Hc.
  - exists c. split; assumption.
  - simpl. unfold add_call.
    destruct (add_annotation_call_effect self (at_time call) (failure call)
                (payload call) c Hdb) as (c1 & Hdb1 & Heffect).
    apply (IH _ c1 Hdb1). exact (Hstep _ c c1 Heffect Hc).
Qed.





Lemma add_all_well_formed calls :
  well_formed (visible (add_all calls (open_store None))).
Proof.
  destruct (add_all_preserves
              (fun c => well_formed (committed c) /\ well_formed (working c))
              (call_effect_both well_formed add_effect_well_formed)
              calls (open_store None) (connect empty_database) eq_refl
              (conj empty_database_well_formed empty_database_well_formed))
    as (c & Hdb & _ & Hseen).
  unfold visible. rewrite Hdb. exact Hseen.
Qed.

(** Growth of the tables. *)

Lemma same_but_marked_refl row : same_but_marked row row.
Proof. repeat split; auto. Qed.

Lemma same_but_marked_trans r1 r2 r3 :
  same_but_marked r1 r2 -> same_but_marked r2 r3 -> same_but_marked r1 r3.
Proof.
  intros (Hr & Hi & Ha & Hf & Hd) (Hr' & Hi' & Ha' & Hf' & Hd').
  repeat split; try congruence.
  destruct Hd as [Hd|Hd]; [|right; exact Hd].
  destruct Hd' as [Hd'|Hd']; [left; congruence|right; congruence].
Qed.

Lemma grows_refl d : grows d d.
Proof.
  split; [exists []; symmetry; apply app_nil_r|].
  intros n row Hn. exists row. split; [exact Hn|apply same_but_marked_refl].
Qed.

Lemma grows_trans d1 d2 d3 : grows d1 d2 -> grows d2 d3 -> grows d1 d3.
Proof.
  intros [[a1 Ha1] Hf1] [[a2 Ha2] Hf2]. split.
  - exists (a1 ++ a2)%list. rewrite Ha2, Ha1, <- app_assoc. reflexivity.
  - intros n row Hn.
    destruct (Hf1 n row Hn) as (mid & Hmid & Hsame).
    destruct (Hf2 n mid Hmid) as (row' & Hrow' & Hsame').
    exists row'. split; [exact Hrow'|].
    exact (same_but_marked_trans _ _ _ Hsame Hsame').
Qed.

Lemma add_effect_grows w w' : add_effect w w' -> grows w w'.
Proof.
  intros Heffect. split; [apply add_effect_appends, Heffect|].
  intros n row Hn.
  destruct (features_step_row_kept _ _ n row (add_effect_features_step _ _ Heffect) Hn)
    as (row' & Hrow' & Hsame).
  exists row'. split; [exact Hrow'|exact Hsame].
Qed.

(** The handle shows what the file holds and more, and a call only adds to
    what the file holds. *)
Lemma call_effect_grows c0 ft c c' :
  call_effect ft c c' ->
  grows (committed c0) (committed c) /\ grows (committed c) (working c) ->
  grows (committed c0) (committed c') /\ grows (committed c') (working c').
Proof.
  intros [w Hw|f _ _|w Hw] [Hfile Hseen]; simpl.
  - split; [exact Hfile|].
    exact (grows_trans _ _ _ Hseen (add_effect_grows _ _ Hw)).
  - split; [exact Hfile|apply grows_refl].
  - split; [|apply grows_refl].
    exact (grows_trans _ _ _ Hfile
             (grows_trans _ _ _ Hseen (add_effect_grows _ _ Hw))).
Qed.

Lemma add_all_grows file before calls :
  exists c c',
    db (add_all before (open_store file)) = Some c
    /\ db (add_all calls (add_all before (open_store file))) = Some c'
    /\ grows (committed c) (committed c')
    /\ grows (committed c') (working c').
Proof.
  set (start := connect (contents file)).
  destruct (add_all_preserves
              (fun c => grows (committed start) (committed c)
                        /\ grows (committed c) (working c))
              (call_effect_grows start) before (open_store file) start)
    as (c & Hdb & _ & Hseen);
    [destruct file; reflexivity|split; apply grows_refl|].
  destruct (add_all_preserves
              (fun c' => grows (committed c) (committed c')
                         /\ grows (committed c') (working c'))
              (call_effect_grows c) calls _ c Hdb (conj (grows_refl _) Hseen))
    as (c' & Hdb' & Hfile' & Hseen').
  exists c, c'. split; [exact Hdb|]. split; [exact Hdb'|]. split; assumption.
Qed.

(** ** A call that succeeds *)

(** The database a successful call leaves: the row inserted, the features
    of its pair marked, the payload's feature inserted if it is a
    non-empty object. *)
Lemma add_annotation_accepted self now annotation result self' id :
  add_annotation self now None annotation = (Returned result, self') ->
  dict_lookup result "annotationId" = Some (JNum id) ->
  exists c row creator,
    db self = Some c
    /\ a_rowid row = id /\ id = next_rowid (annotations_table (working c))
    /\ sql_text (dict_get annotation "resource" JNull) = Some (a_resource row)
    /\ sql_text (dict_get annotation "item" JNull) = Some (a_item row)
    /\ sql_text (match dict_get annotation "created" JNull with
                 | JNull => JStr now
                 | given => given
                 end) = Some (a_created row)
    /\ dict_get annotation "creator" JNull = JObj creator
    /\ sql_text (dict_get creator "orcid" JNull) = Some (a_orcid row)
    /\ a_creator row = dict_remove creator "canUpdate"
    /\ a_annotation row = fold_left dict_remove popped annotation
    /\ self'
       = {| db := Some (connect
            (match dict_get annotation "feature" JNull with
             | JObj (m :: members) =>
                 insert_feature
                   (update_features (insert_annotation (working c) row)
                      id (a_resource row) (a_item row))
                   (feature_of row (m :: members))
             | _ =>
                 update_features (insert_annotation (working c) row)
                   id (a_resource row) (a_item row)
             end)) |}.
Proof.
  unfold add_annotation.
  destruct (db self) as [c|] eqn:Hdb;
    [|intros H Hid; injection H as <- _; discriminate].
  unfold dict_pop. cbv beta iota zeta.
  rewrite !dict_get_remove_ne by reflexivity.
  destruct (truthy _ && truthy _ && truthy _);
    [|intros H Hid; injection H as <- _; discriminate].
  destruct (dict_get annotation "creator" JNull) as [| | | | |creator];
    try (intros H; discriminate).
  destruct (truthy (dict_get creator "orcid" JNull));
    [|intros H Hid; injection H as <- _; discriminate].
  destruct (sql_text (dict_get annotation "resource" JNull)) as [resource|];
    [|intros H; discriminate].
  destruct (sql_text (dict_get annotation "item" JNull)) as [item|];
    [|intros H; discriminate].
  destruct (sql_text match dict_get annotation "created" JNull with
                     | JNull => JStr now
                     | _ => dict_get annotation "created" JNull
                     end) as [created|] eqn:Hcreated;
    [|intros H; discriminate].
  destruct (sql_text (dict_get creator "orcid" JNull)) as [orcid|] eqn:Horcid;
    [|intros H; discriminate].
  unfold transaction. simpl execute. cbv beta iota zeta.
  set (row := {| a_rowid := next_rowid (annotations_table (working c));
                 a_resource := resource; a_item := item; a_created := created;
                 a_orcid := orcid; a_creator := dict_remove creator "canUpdate";
                 a_annotation := _ |}).
  intros H Hid.
  assert (Hresult : result = [("annotationId", JNum (a_rowid row))]).
  { destruct (dict_get annotation "feature" JNull) as [| | | | |[|m ms]];
      simpl in H; injection H as <- _; reflexivity. }
  subst result. simpl in Hid. injection Hid as <-.
  exists c, row, creator.
  repeat split; try reflexivity; try exact Horcid.
  - destruct (dict_get annotation "created" JNull); exact Hcreated.
  - destruct (dict_get annotation "feature" JNull) as [| | | | |[|m ms]];
      simpl in H; injection H as <-; reflexivity.
Qed.

(** ** One current feature for every pair *)




(** ** Marks that stay and marks that are lost *)

Lemma same_but_marked_set row row' :
  same_but_marked row row' -> f_deleted row <> None -> row' = row.
Proof.
  intros (Hr & Hi & Ha & Hf & Hd) Hset.
  destruct Hd as [Hd|Hd]; [|contradiction].
  destruct row, row'. simpl in *. congruence.
Qed.

Lemma grows_deleted_kept d d' n row :
  grows d d' -> features_table d !! n = Some row -> f_deleted row <> None ->
  features_table d' !! n = Some row.
Proof.
  intros [_ Hrows] Hn Hset. destruct (Hrows n row Hn) as (row' & Hrow' & Hsame).
  rewrite (same_but_marked_set _ _ Hsame Hset) in Hrow'. exact Hrow'.
Qed.

Lemma add_call_features_step self c :
  keeps_transaction c ->
  features_step (features_table (visible self))
    (features_table (visible (add_call self c))).
Proof.
  intros Hkeeps. apply add_effect_features_step, add_annotation_effect, Hkeeps.
Qed.

Lemma add_all_deleted_kept calls : forall self n row,
  Forall keeps_transaction calls ->
  features_table (visible self) !! n = Some row ->
  f_deleted row <> None ->
  features_table (visible (add_all calls self)) !! n = Some row.
Proof.
  induction calls as [|c calls IH]; intros self n row Hkeep Hn Hdel; [exact Hn|].
  apply List.Forall_cons_iff in Hkeep as [Hc Hkeep].
  simpl. apply IH; [exact Hkeep| |exact Hdel].
  eapply features_step_deleted_kept;
    [apply add_call_features_step, Hc|exact Hn|exact Hdel].
Qed.

(** C6. Once the file holds a feature row with a superseding annotation
    identifier in [deleted], no later sequence of [add_annotation] calls,
    whatever fails during them, changes that row: it is still there, at the
    same place, with the same [deleted], in the file and in what the store
    shows.  A mark that the store shows but the file may not hold yet stays
    as long as SQLite cancels no transaction. *)
Theorem deleted_is_final (file : option database) (before calls : list call)
    (n : nat) (row : feature_row) (id : Z) :
  f_deleted row = Some id ->
  let self := add_all before (open_store file) in
  (features_table (contents (stored self)) !! n = Some row ->
   features_table (contents (stored (add_all calls self))) !! n = Some row
   /\ features_table (visible (add_all calls self)) !! n = Some row)
  /\ (features_table (visible self) !! n = Some row ->
      Forall keeps_transaction calls ->
      features_table (visible (add_all calls self)) !! n = Some row).
Proof.
  intros Hdel self.
  assert (Hset : f_deleted row <> None) by congruence.
  split.
  - destruct (add_all_grows file before calls) as (c & c' & Hdb & Hdb' & Hfile & Hseen).
    fold self in Hdb, Hdb'. unfold stored, visible. rewrite Hdb, Hdb'. simpl.
    intros Hn.
    pose proof (grows_deleted_kept _ _ n row Hfile Hn Hset) as Hn'.
    split; [exact Hn'|exact (grows_deleted_kept _ _ n row Hseen Hn' Hset)].
  - intros Hn Hkeep. apply add_all_deleted_kept; assumption.
Qed.

Lemma deleted_is_final_witness :
  let row := {| f_resource := "map1"; f_item := "itemA"; f_deleted := Some 2;
                f_annotation := 1; f_feature := point_feature |} in
  let later := [calling_with full_disk_at_feature "2023-05-02T09:00:00+00:00"
                  feature_on_itemA;
                calling "2023-05-02T10:00:00+00:00" feature_on_itemA] in
  f_deleted row = Some 2
  /\ features_table (contents (stored superseded_store)) !! 0%nat = Some row
  /\ features_table (contents (stored (add_all later superseded_store))) !! 0%nat
     = Some row
  /\ features_table (visible (add_all later superseded_store)) !! 0%nat = Some row.
Proof.
  intros row later. split; [reflexivity|]. split; [reflexivity|].
  apply (deleted_is_final None
           [calling "2023-05-01T10:00:00+00:00" feature_on_itemA;
            calling "2023-05-01T11:00:00+00:00" comment_on_itemA]
           later 0 row 2); reflexivity.
Defined.

(** The specification's wording fails for a mark that was not committed.
    The comment on itemA marked the feature row with 2, but its commit
    failed on a lock; the store shows the mark.  The next call fills the
    disk, SQLite rolls the transaction back, and the store shows the row
    with a null [deleted] again. *)
Lemma uncommitted_mark_is_undone :
  let later := [calling_with full_disk_at_feature "2023-05-02T09:00:00+00:00"
                  feature_on_itemA] in
  map f_deleted (features_table (visible pending_mark_store)) = [Some 2]
  /\ map f_deleted (features_table (visible (add_all later pending_mark_store)))
     = [None]
  /\ ~ mark_is_final pending_mark_store later.
Proof.
  intros later. split; [reflexivity|]. split; [reflexivity|].
  intros Hfinal.
  destruct (Hfinal 0%nat
              {| f_resource := "map1"; f_item := "itemA"; f_deleted := Some 2;
                 f_annotation := 1; f_feature := point_feature |} 2
              eq_refl eq_refl) as (row' & Hrow' & Hdel).
  vm_compute in Hrow'. injection Hrow' as <-. discriminate.
Qed.

(** ** When the store fails *)

(** A call that succeeds commits what the store showed before it together
    with its own row. *)
Lemma accepted_commits self now annotation result self' id :
  add_annotation self now None annotation = (Returned result, self') ->
  dict_lookup result "annotationId" = Some (JNum id) ->
  exists row,
    a_rowid row = id
    /\ annotations_table (visible self')
       = (annotations_table (visible self) ++ [row])%list
    /\ stored self' = Some (visible self').
Proof.
  intros Hadd Hid.
  destruct (add_annotation_accepted _ _ _ _ _ _ Hadd Hid)
    as (c & row & creator & Hdb & Hrow & _ & _ & _ & _ & _ & _ & _ & _ & ->).
  exists row. split; [exact Hrow|].
  unfold visible, stored. rewrite Hdb.
  destruct (dict_get annotation "feature" JNull) as [| | | | |[|m members]];
    split; reflexivity.
Qed.

(** A failure that is reached ends the transaction at the failing
    statement, with what the statements before it have done. *)
Lemma transaction_failure f c resource item created orcid creator ann feature :
  transaction (Some f) c resource item created orcid creator ann feature
  <> transaction None c resource item created orcid creator ann feature ->
  transaction (Some f) c resource item created orcid creator ann feature
  = let row := {| a_rowid := next_rowid (annotations_table (working c));
                  a_resource := resource; a_item := item; a_created := created;
                  a_orcid := orcid; a_creator := creator; a_annotation := ann |} in
    on_exception f
      (if statement_eqb (failing f) InsertAnnotation then []
       else [("annotationId", JNum (a_rowid row))])
      c (done_before (failing f) (working c) row feature).
Proof.
  unfold transaction, execute.
  destruct f as [st e k]; simpl.
  destruct st; simpl; try reflexivity;
    destruct feature as [| | | | |[|m ms]]; simpl; try reflexivity; congruence.
Qed.

(** C3. When a statement of the transaction fails, nothing of the call is
    committed: the file holds what it held before, so a store opened
    afterwards reads no trace of the failed call.  A failure that is an
    [OperationalError] comes back as a result with [error] set to its
    message, together with [annotationId] unless it was the insertion of
    the annotation row that failed; any other exception leaves
    [add_annotation].  The method does not roll back.  When SQLite cancelled
    the transaction, the store afterwards shows what the file holds;
    otherwise it shows what the statements before the failing one have done:
    the new annotation row, the marks on the features of its pair, the new
    feature row.  The next call through the store that succeeds commits
    what the store shows then, with its own row. *)
Theorem failure_commits_nothing (self : AnnotationStore) (now : string)
    (f : fault) (annotation : dict) :
  add_annotation self now (Some f) annotation
  <> add_annotation self now None annotation ->
  let '(out, self') := add_annotation self now (Some f) annotation in
  let id := next_rowid (annotations_table (visible self)) in
  stored self' = stored self
  /\ annotations (open_store (stored self')) None None
     = annotations (open_store (stored self)) None None
  /\ (if is_operational (raised f)
      then exists result,
             out = Returned result
             /\ dict_lookup result "error" = Some (JStr (exc_message (raised f)))
             /\ dict_lookup result "annotationId"
                = (if statement_eqb (failing f) InsertAnnotation then None
                   else Some (JNum id))
      else out = Raised (raised f))
  /\ (if cancelled f
      then Some (visible self') = stored self
      else exists row,
             a_rowid row = id
             /\ sql_text (dict_get annotation "resource" JNull) = Some (a_resource row)
             /\ sql_text (dict_get annotation "item" JNull) = Some (a_item row)
             /\ visible self'
                = done_before (failing f) (visible self) row
                    (dict_get annotation "feature" JNull))
  /\ (forall later next result self'' id',
        add_annotation self' later None next = (Returned result, self'') ->
        dict_lookup result "annotationId" = Some (JNum id') ->
        exists row',
          a_rowid row' = id'
          /\ annotations_table (visible self'')
             = (annotations_table (visible self') ++ [row'])%list
          /\ stored self'' = Some (visible self'')).
Proof.
  assert (Hnext : forall self',
            forall later next result self'' id',
              add_annotation self' later None next = (Returned result, self'') ->
              dict_lookup result "annotationId" = Some (JNum id') ->
              exists row',
                a_rowid row' = id'
                /\ annotations_table (visible self'')
                   = (annotations_table (visible self') ++ [row'])%list
                /\ stored self'' = Some (visible self''))
    by (intros self' later next result self'' id'; apply accepted_commits).
  intros Hdiffers.
  destruct (add_annotation self now (Some f) annotation) as [out self'] eqn:Hcall.
  cut (let '(out, self') := add_annotation self now (Some f) annotation in
       stored self' = stored self
       /\ annotations (open_store (stored self')) None None
          = annotations (open_store (stored self)) None None
       /\ (if is_operational (raised f)
           then exists result,
                  out = Returned result
                  /\ dict_lookup result "error"
                     = Some (JStr (exc_message (raised f)))
                  /\ dict_lookup result "annotationId"
                     = (if statement_eqb (failing f) InsertAnnotation then None
                        else Some (JNum (next_rowid
                                           (annotations_table (visible self)))))
           else out = Raised (raised f))
       /\ (if cancelled f
           then Some (visible self') = stored self
           else exists row,
                  a_rowid row = next_rowid (annotations_table (visible self))
                  /\ sql_text (dict_get annotation "resource" JNull)
                     = Some (a_resource row)
                  /\ sql_text (dict_get annotation "item" JNull)
                     = Some (a_item row)
                  /\ visible self'
                     = done_before (failing f) (visible self) row
                         (dict_get annotation "feature" JNull))).
  { rewrite Hcall. cbv zeta. intros (H1 & H2 & H3 & H4).
    repeat (split; [assumption|]). apply Hnext. }
  rewrite <- Hcall in Hdiffers. clear Hcall out self' Hnext. revert Hdiffers.
  unfold add_annotation, stored, visible.
  destruct (db self) as [c|] eqn:Hdb; [|congruence].
  unfold dict_pop. cbv beta iota zeta.
  rewrite !dict_get_remove_ne by reflexivity.
  destruct (truthy _ && truthy _ && truthy _); [|congruence].
  destruct (dict_get annotation "creator" JNull) as [| | | | |creator];
    try congruence.
  destruct (truthy (dict_get creator "orcid" JNull)); [|congruence].
  destruct (sql_text (dict_get annotation "resource" JNull)) as [resource|];
    [|congruence].
  destruct (sql_text (dict_get annotation "item" JNull)) as [item|];
    [|congruence].
  destruct (sql_text match dict_get annotation "created" JNull with
                     | JNull => JStr now
                     | _ => dict_get annotation "created" JNull
                     end) as [created|];
    [|congruence].
  destruct (sql_text (dict_get creator "orcid" JNull)) as [orcid|];
    [|congruence].
  intros Hdiffers. rewrite (transaction_failure _ _ _ _ _ _ _ _ _ Hdiffers).
  cbv zeta. unfold on_exception.
  set (row := {| a_rowid := next_rowid (annotations_table (working c));
                 a_resource := resource; a_item := item; a_created := created;
                 a_orcid := orcid; a_creator := _; a_annotation := _ |}).
  set (done := done_before (failing f) (working c) row _).
  assert (Hseen : if cancelled f
                  then Some (if cancelled f then committed c else done)
                       = Some (committed c)
                  else exists row0,
                         a_rowid row0 = next_rowid (annotations_table (working c))
                         /\ Some resource = Some (a_resource row0)
                         /\ Some item = Some (a_item row0)
                         /\ (if cancelled f then committed c else done)
                            = done_before (failing f) (working c) row0
                                (dict_get annotation "feature" JNull)).
  { destruct (cancelled f); [reflexivity|]. exists row. repeat split. }
  destruct (is_operational (raised f)); simpl;
    (split; [reflexivity|]); (split; [reflexivity|]); (split; [|exact Hseen]);
    [|reflexivity].
  eexists. split; [reflexivity|].
  destruct (statement_eqb (failing f) InsertAnnotation); split; reflexivity.
Qed.

Lemma failure_commits_nothing_witness :
  add_annotation (open_store None) "2023-05-01T10:00:00+00:00"
    (Some full_disk_at_feature) feature_on_itemA
  <> add_annotation (open_store None) "2023-05-01T10:00:00+00:00" None
       feature_on_itemA
  /\ let '(out, self') :=
       add_annotation (open_store None) "2023-05-01T10:00:00+00:00"
         (Some full_disk_at_feature) feature_on_itemA in
     let id := next_rowid (annotations_table (visible (open_store None))) in
     stored self' = stored (open_store None)
     /\ annotations (open_store (stored self')) None None
        = annotations (open_store (stored (open_store None))) None None
     /\ (if is_operational (raised full_disk_at_feature)
         then exists result,
                out = Returned result
                /\ dict_lookup result "error"
                   = Some (JStr (exc_message (raised full_disk_at_feature)))
                /\ dict_lookup result "annotationId"
                   = (if statement_eqb (failing full_disk_at_feature) InsertAnnotation
                      then None else Some (JNum id))
         else out = Raised (raised full_disk_at_feature))
     /\ (if cancelled full_disk_at_feature
         then Some (visible self') = stored (open_store None)
         else exists row,
                a_rowid row = id
                /\ sql_text (dict_get feature_on_itemA "resource" JNull)
                   = Some (a_resource row)
                /\ sql_text (dict_get feature_on_itemA "item" JNull)
                   = Some (a_item row)
                /\ visible self'
                   = done_before (failing full_disk_at_feature)
                       (visible (open_store None)) row
                       (dict_get feature_on_itemA "feature" JNull))
     /\ (forall later next result self'' id',
           add_annotation self' later None next = (Returned result, self'') ->
           dict_lookup result "annotationId" = Some (JNum id') ->
           exists row',
             a_rowid row' = id'
             /\ annotations_table (visible self'')
                = (annotations_table (visible self') ++ [row'])%list
             /\ stored self'' = Some (visible self'')).
Proof.
  split; [vm_compute; discriminate|].
  apply (failure_commits_nothing (open_store None) "2023-05-01T10:00:00+00:00"
           full_disk_at_feature feature_on_itemA).
  vm_compute; discriminate.
Defined.

(** The specification's wording fails twice.  With the file locked at the
    commit, the call returns an error but its annotation row and its
    feature row are read back through the same store, and the next call
    that succeeds commits them with its own; with a damaged file the
    exception is not an [OperationalError] and no result is returned at
    all. *)
Lemma failure_is_not_rolled_back :
  ~ failure_is_rolled_back (open_store None) "2023-05-01T10:00:00+00:00"
      locked_at_commit feature_on_itemA
  /\ ~ failure_is_rolled_back (open_store None) "2023-05-01T10:00:00+00:00"
        damaged_file_at_feature feature_on_itemA
  /\ (let failed :=
        snd (add_annotation (open_store None) "2023-05-01T10:00:00+00:00"
               (Some locked_at_commit) feature_on_itemA) in
      map a_rowid (annotations_table (visible failed)) = [1]
      /\ stored failed = Some empty_database
      /\ option_map (fun d => map a_rowid (annotations_table d))
           (stored (snd (add_annotation failed "2023-05-01T11:00:00+00:00" None
                           comment_on_itemA)))
         = Some [1; 2]).
Proof.
  split; [|split].
  - intros H. vm_compute in H. destruct H as (_ & H & _). discriminate.
  - intros H. vm_compute in H.
    destruct H as ((result & message & H & _) & _). discriminate.
  - repeat split.
Qed.
(** ** A single annotation *)

Lemma left_join_fst ans fs a f :
  In (a, f) (left_join ans fs) -> In a ans.
Proof.
  unfold left_join. rewrite in_flat_map. intros (a' & Ha' & Hin).
  destruct (List.filter _ fs) as [|m ms].
  - destruct Hin as [Heq|[]]. inversion Heq; subst; exact Ha'.
  - apply in_map_iff in Hin as (f' & Heq & _). inversion Heq; subst; exact Ha'.
Qed.

(** An identifier no row has gives the empty record. *)
Lemma annotation_unknown_id self id :
  (forall row, In row (annotations_table (visible self)) -> a_rowid row <> id) ->
  annotation self id = [].
Proof.
  unfold annotation, visible. destruct (db self) as [c|]; [|reflexivity].
  intros Hunknown.
  destruct (List.filter _ (left_join _ _)) as [|[a f] rest] eqn:Hsel; [reflexivity|].
  assert (Hin : In (a, f) (List.filter
            (fun af => (a_rowid (fst af) =? id)
                       && match snd af with
                          | Some f => is_null (f_deleted f)
                          | None => true
                          end)
            (left_join (annotations_table (working c)) (features_table (working c)))))
    by (rewrite Hsel; left; reflexivity).
  apply filter_In in Hin as [Hin Hsat]. simpl in Hsat.
  apply andb_true_iff in Hsat as [Hid%Z.eqb_eq _].
  apply left_join_fst in Hin. exfalso. exact (Hunknown a Hin Hid).
Qed.

(** C4. In the store where annotation 1 gave itemA a feature and
    annotation 2 then superseded it, annotation 1 is a known row, and
    [annotation(1)] is the empty record, the same as for the unknown
    identifier 3; annotation 2, which never had a feature, comes back with a
    null [feature], and before annotation 2 was added annotation 1 came back
    with its feature. *)
Theorem superseded_annotation_is_empty :
  In 1 (map a_rowid (annotations_table (visible superseded_store)))
  /\ annotation superseded_store 1 = []
  /\ annotation superseded_store 3 = []
  /\ dict_lookup (annotation superseded_store 2) "feature" = Some JNull
  /\ dict_lookup
       (annotation
          (add_all [calling "2023-05-01T10:00:00+00:00" feature_on_itemA]
             (open_store None)) 1) "feature" = Some (JObj point_feature).
Proof. repeat split; vm_compute; auto. Qed.

(** ** Ordering of the listing *)

Section OrderBy.

Context {A : Type}.
Variable leb : A -> A -> bool.
Hypothesis leb_total : forall x y, leb x y = true \/ leb y x = true.
Hypothesis leb_trans : forall x y z, leb x y = true -> leb y z = true -> leb x z = true.

Let le (x y : A) : Prop := leb x y = true.

Lemma insert_by_permutation x l : Permutation (insert_by leb x l) (x :: l).
Proof.
  induction l as [|y l IH]; simpl; [reflexivity|].
  destruct (leb x y); [reflexivity|].
  rewrite IH. apply perm_swap.
Qed.

Lemma order_by_permutation l : Permutation (order_by leb l) l.
Proof.
  induction l as [|x l IH]; simpl; [reflexivity|].
  rewrite insert_by_permutation. constructor. exact IH.
Qed.

Lemma insert_by_sorted x l :
  StronglySorted le l -> StronglySorted le (insert_by leb x l).
Proof.
  induction 1 as [|y l Hsorted IH Hall]; simpl.
  - repeat constructor.
  - destruct (leb x y) eqn:Hxy.
    + constructor; [constructor; assumption|].
      constructor; [exact Hxy|].
      eapply List.Forall_impl; [|exact Hall].
      intros z Hyz. exact (leb_trans x y z Hxy Hyz).
    + constructor; [exact IH|].
      eapply Permutation_Forall; [symmetry; apply insert_by_permutation|].
      constructor; [|exact Hall].
      destruct (leb_total x y) as [Hle|Hle]; [congruence|exact Hle].
Qed.

Lemma order_by_sorted l : StronglySorted le (order_by leb l).
Proof.
  induction l as [|x l IH]; simpl; [constructor|].
  apply insert_by_sorted, IH.
Qed.

End OrderBy.

(** Text order. *)

Lemma ascii_compare_lt_trans a b c :
  Ascii.compare a b = Lt -> Ascii.compare b c = Lt -> Ascii.compare a c = Lt.
Proof. unfold Ascii.compare. rewrite !N.compare_lt_iff. lia. Qed.

Lemma text_lt_trans s t u : text_lt s t -> text_lt t u -> text_lt s u.
Proof.
  unfold text_lt. revert t u.
  induction s as [|a s IH]; intros [|b t] [|c u]; simpl; try discriminate; auto.
  destruct (Ascii.compare a b) eqn:Hab; try discriminate.
  - apply Ascii.compare_eq_iff in Hab as ->.
    destruct (Ascii.compare b c); try discriminate; auto. apply IH.
  - intros _. destruct (Ascii.compare b c) eqn:Hbc; try discriminate.
    + apply Ascii.compare_eq_iff in Hbc as <-. rewrite Hab. reflexivity.
    + rewrite (ascii_compare_lt_trans a b c Hab Hbc). reflexivity.
Qed.

Lemma text_le_cases s t : text_le s t <-> text_lt s t \/ s = t.
Proof.
  unfold text_le, text_lt. split.
  - destruct (String.compare s t) eqn:Hc; [|auto|congruence].
    apply String.compare_eq_iff in Hc. auto.
  - intros [-> | ->]; [discriminate|].
    pose proof (String.compare_antisym t t) as Hanti.
    destruct (String.compare t t); discriminate.
Qed.

Lemma text_le_trans s t u : text_le s t -> text_le t u -> text_le s u.
Proof.
  rewrite !text_le_cases. intros [Hst | ->] [Htu | ->]; auto.
  left. exact (text_lt_trans s t u Hst Htu).
Qed.

Lemma string_leb_text_le s t : String.leb s t = true <-> text_le s t.
Proof.
  unfold String.leb, text_le.
  destruct (String.compare s t); split; congruence.
Qed.

Lemma created_desc_creator_newest_first a b :
  created_desc_creator a b = true <-> newest_first a b.
Proof.
  unfold created_desc_creator, newest_first, text_lt.
  destruct (String.compare (a_created b) (a_created a)) eqn:Hc.
  - apply String.compare_eq_iff in Hc. rewrite string_leb_text_le.
    split; [auto|]. intros [Hlt|[_ Hle]]; [discriminate|exact Hle].
  - split; auto.
  - split; [discriminate|]. intros [Hlt|[Heq _]]; [discriminate|].
    rewrite Heq in Hc.
    destruct (text_le_cases (a_created b) (a_created b)) as [_ Hrefl].
    exfalso. apply (Hrefl (or_intror eq_refl)). exact Hc.
Qed.

Lemma created_desc_creator_total a b :
  created_desc_creator a b = true \/ created_desc_creator b a = true.
Proof.
  unfold created_desc_creator.
  rewrite (String.compare_antisym (a_created a) (a_created b)).
  destruct (String.compare (a_created b) (a_created a)); simpl; auto.
  apply String.leb_total.
Qed.

Lemma created_desc_creator_trans a b c :
  created_desc_creator a b = true -> created_desc_creator b c = true ->
  created_desc_creator a c = true.
Proof.
  rewrite !created_desc_creator_newest_first. unfold newest_first.
  intros [Hab|[Hab Hcab]] [Hbc|[Hbc Hcbc]].
  - left. exact (text_lt_trans _ _ _ Hbc Hab).
  - left. rewrite <- Hbc. exact Hab.
  - left. rewrite Hab. exact Hbc.
  - right. split; [congruence|]. exact (text_le_trans _ _ _ Hcab Hcbc).
Qed.

Lemma StronglySorted_weaken {A} (R Q : A -> A -> Prop) l :
  (forall x y, R x y -> Q x y) -> StronglySorted R l -> StronglySorted Q l.
Proof.
  intros HRQ. induction 1 as [|x l _ IH Hall]; constructor; [exact IH|].
  eapply List.Forall_impl; [|exact Hall]. intros y. apply HRQ.
Qed.

Lemma annotations_select self resource_id item_id :
  annotations self resource_id item_id
  = map annotation_record
      (order_by created_desc_creator
         (List.filter (annotation_matches resource_id item_id)
            (annotations_table (visible self)))).
Proof. unfold annotations, visible. destruct (db self); reflexivity. Qed.

(** C5. [annotations] returns the records of exactly the rows that match
    the resource (and the item, when both are given), the row with the later
    [created] text first; rows with the same [created] are ordered by the
    text of their serialized creator record, ascending.  Without a resource
    every row of the table is returned, whatever the item. *)
Theorem annotations_newest_first (self : AnnotationStore)
    (resource_id item_id : option string) :
  (exists rows,
     annotations self resource_id item_id = map annotation_record rows
     /\ Permutation rows
          (List.filter (annotation_matches resource_id item_id)
             (annotations_table (visible self)))
     /\ StronglySorted newest_first rows)
  /\ (exists rows,
        annotations self None item_id = map annotation_record rows
        /\ Permutation rows (annotations_table (visible self))).
Proof.
  split.
  - eexists. split; [apply annotations_select|]. split.
    + apply order_by_permutation.
    + eapply StronglySorted_weaken;
        [|apply order_by_sorted;
          [apply created_desc_creator_total|apply created_desc_creator_trans]].
      intros x y. apply created_desc_creator_newest_first.
  - eexists. split; [apply annotations_select|].
    rewrite order_by_permutation. simpl.
    induction (annotations_table (visible self)) as [|row rows IH]; simpl;
      [reflexivity|constructor; exact IH].
Qed.

Lemma tie_not_broken_by_identifier :
  map creator_identifier (annotations tied_store (Some "map1") (Some "itemA"))
  = ["0000-0002-0000-0002"; "0000-0001-0000-0001"]
  /\ ~ StronglySorted newest_first_by_identifier
         (annotations tied_store (Some "map1") (Some "itemA")).
Proof.
  split; [vm_compute; reflexivity|].
  intros Hsorted.
  remember (annotations tied_store (Some "map1") (Some "itemA")) as listing eqn:Hl.
  vm_compute in Hl. subst listing.
  apply StronglySorted_inv in Hsorted as [_ Hfirst].
  apply Forall_inv in Hfirst.
  vm_compute in Hfirst.
  destruct Hfirst as [Hlt|[_ Hle]]; [discriminate|exact (Hle eq_refl)].
Qed.

(** ** Sessions *)

(** Reading a request branch by branch: the equations at hand decide what
    the decorator finds. *)
Ltac read_request :=
  unfold __authenticated, request_parameters, parameters_get, malformed,
    failure_answer;
  repeat first
    [ match goal with
      | H : method _ = _ |- _ => rewrite H
      | H : get_json _ = _ |- _ => rewrite H
      | H : _ !! _ = _ |- _ => rewrite H
      | H : dict_get _ _ _ = _ |- _ => rewrite H
      end
    | progress simpl ];
  reflexivity.

Section ServerProperties.

Variable uuid5_url : string -> string.
Variable get_user : string -> dict.

(** C7. The token of a key does not depend on the registry or on the data
    stored: creating a session for the same key twice, in any two
    registries, gives the same token, that of [__session_key].  After
    [__new_session] the token looks up the data just stored, whatever was
    there before.  After [__del_session] the token looks up nothing, and
    the call answers [True] exactly when there was an entry. *)
Theorem session_registry_laws (key token : string) (data data' : dict)
    (sessions sessions' : gmap string dict) :
  fst (__new_session uuid5_url key data sessions)
  = fst (__new_session uuid5_url key data' sessions')
  /\ fst (__new_session uuid5_url key data sessions) = __session_key uuid5_url key
  /\ __session_data (__session_key uuid5_url key)
       (snd (__new_session uuid5_url key data sessions)) = Some data
  /\ __session_data token (snd (__del_session token sessions)) = None
  /\ (fst (__del_session token sessions) = true
      <-> exists stored, __session_data token sessions = Some stored).
Proof.
  unfold __new_session, __del_session, __session_data. simpl.
  repeat split.
  - apply lookup_insert_eq.
  - apply lookup_delete_eq.
  - destruct (sessions !! token) as [d|]; simpl; [eauto|discriminate].
  - intros [d ->]. reflexivity.
Qed.

(** C8. [unauthenticate] answers with a message and leaves the registry as
    it is: the session that [authenticate] created for a key is still
    looked up by its token afterwards. *)
Theorem unauthenticate_keeps_session (key : string) (sent : json_body)
    (req : request) (w : world) :
  dict_lookup (get_user key) "error" = None ->
  let login := {| method := GET; args := {["key" := key]}; get_json := sent |} in
  let w1 := snd (authenticate uuid5_url get_user login w) in
  let w2 := snd (unauthenticate req w1) in
  w2 = w1
  /\ __session_data (__session_key uuid5_url key) (sessions w2)
     = Some (get_user key).
Proof.
  intros Hok. simpl. split; [reflexivity|].
  unfold authenticate. simpl. rewrite lookup_singleton_eq, Hok. simpl.
  unfold __session_data. apply lookup_insert_eq.
Qed.

(** What a request carries, method by method. *)

Lemma carries_get req name v :
  method req = GET -> (carries req name v <-> args req !! name = Some v).
Proof.
  intros Hm. unfold carries. split.
  - intros [[_ H]|[H _]]; [exact H|congruence].
  - intros H. left. split; assumption.
Qed.

Lemma carries_post req name v members :
  method req = POST -> get_json req = body_value (JObj members) ->
  (carries req name v <-> dict_get members name JNull = JStr v).
Proof.
  intros Hm Hbody. unfold carries, dict_get. split.
  - intros [[H _]|[_ (m & Hm' & Hv)]]; [congruence|].
    rewrite Hbody in Hm'. injection Hm' as <-. rewrite Hv. reflexivity.
  - intros H. right. split; [exact Hm|]. exists members. split; [exact Hbody|].
    destruct (dict_lookup members name); congruence.
Qed.

Lemma not_passing_without req w name :
  name = "key" \/ name = "session" ->
  (forall v, ~ carries req name v) ->
  forall data, ~ passes_gate uuid5_url req w data.
Proof.
  intros Hname Hnone data (key & token & Hkey & Htoken & _).
  destruct Hname as [-> | ->]; eapply Hnone; eassumption.
Qed.

Lemma carries_one req name v v' :
  carries req name v -> carries req name v' -> v = v'.
Proof.
  intros [[Hm H]|[Hm (m & Hb & H)]] [[Hm' H']|[Hm' (m' & Hb' & H')]];
    congruence.
Qed.

(** The check itself, once a text key and a text token are at hand. *)
Lemma gate_checked f req w key token :
  carries req "key" key -> carries req "session" token ->
  let answer :=
    if String.eqb token (__session_key uuid5_url key) then
      match __session_data token (sessions w) with
      | Some data => f (dict_get data "canUpdate" (JBool false)) req w
      | None => (forbidden, w)
      end
    else (forbidden, w) in
  (exists data,
      passes_gate uuid5_url req w data
      /\ answer = f (dict_get data "canUpdate" (JBool false)) req w)
  \/ ((forall data, ~ passes_gate uuid5_url req w data) /\ answer = (forbidden, w)).
Proof.
  intros Hkey Htoken answer. subst answer.
  destruct (String.eqb_spec token (__session_key uuid5_url key)) as [Heq|Hne].
  - destruct (__session_data token (sessions w)) as [data|] eqn:Hdata.
    + left. exists data. split; [|reflexivity].
      exists key, token. repeat split; assumption.
    + right. split; [|reflexivity].
      intros data (k & t & _ & Ht & _ & Hd).
      rewrite (carries_one _ _ _ _ Ht Htoken), Hdata in Hd. discriminate.
  - right. split; [|reflexivity].
    intros data (k & t & Hk & Ht & Heq & _).
    rewrite (carries_one _ _ _ _ Hk Hkey), (carries_one _ _ _ _ Ht Htoken) in Heq.
    contradiction.
Qed.

(** The three ways a request is answered. *)
Lemma gate_outcome (f : view) (req : request) (w : world) :
  (exists data,
      passes_gate uuid5_url req w data
      /\ __authenticated uuid5_url f req w
         = f (dict_get data "canUpdate" (JBool false)) req w)
  \/ ((forall data, ~ passes_gate uuid5_url req w data)
      /\ __authenticated uuid5_url f req w
         = (if malformed req then failure_answer req else forbidden, w)).
Proof.
  assert (Hwithout : forall name answer,
            name = "key" \/ name = "session" ->
            (forall v, ~ carries req name v) ->
            __authenticated uuid5_url f req w = (answer, w) ->
            (if malformed req then failure_answer req else forbidden) = answer ->
            (exists data,
                passes_gate uuid5_url req w data
                /\ __authenticated uuid5_url f req w
                   = f (dict_get data "canUpdate" (JBool false)) req w)
            \/ ((forall data, ~ passes_gate uuid5_url req w data)
                /\ __authenticated uuid5_url f req w
                   = (if malformed req then failure_answer req else forbidden, w))).
  { intros name answer Hname Hnone -> ->. right.
    split; [exact (not_passing_without req w name Hname Hnone)|reflexivity]. }
  assert (Hchecked : forall key token,
            carries req "key" key -> carries req "session" token ->
            malformed req = false ->
            __authenticated uuid5_url f req w
            = (if String.eqb token (__session_key uuid5_url key) then
                 match __session_data token (sessions w) with
                 | Some data => f (dict_get data "canUpdate" (JBool false)) req w
                 | None => (forbidden, w)
                 end
               else (forbidden, w)) ->
            (exists data,
                passes_gate uuid5_url req w data
                /\ __authenticated uuid5_url f req w
                   = f (dict_get data "canUpdate" (JBool false)) req w)
            \/ ((forall data, ~ passes_gate uuid5_url req w data)
                /\ __authenticated uuid5_url f req w
                   = (if malformed req then failure_answer req else forbidden, w))).
  { intros key token Hkey Htoken -> ->. exact (gate_checked f req w key token Hkey Htoken). }
  destruct (method req) eqn:Hm.
  - (* GET *)
    destruct (args req !! "key") as [key|] eqn:Hkey.
    2:{ apply (Hwithout "key" forbidden); [auto| |read_request..].
        intros v Hv%carries_get; congruence. }
    destruct (args req !! "session") as [token|] eqn:Htoken.
    2:{ apply (Hwithout "session" forbidden); [auto| |read_request..].
        intros v Hv%carries_get; congruence. }
    apply (Hchecked key token); [| |read_request..];
      apply carries_get; assumption.
  - (* POST *)
    destruct (get_json req) as [sent|answer] eqn:Hbody.
    2:{ apply (Hwithout "key" answer); [auto| |read_request..].
        intros v [[H _]|[_ (m & H & _)]]; congruence. }
    destruct sent as [| | | | |members];
      try (apply (Hwithout "key" internal_server_error); [auto| |read_request..];
           intros v [[H _]|[_ (m & H & _)]]; congruence).
    destruct (dict_get members "key" JNull) as [| | |key| |] eqn:Hkey;
      try (destruct (dict_get members "session" JNull) eqn:Htoken;
           first [apply (Hwithout "key" forbidden); [auto| |read_request..]
                 |apply (Hwithout "key" internal_server_error);
                  [auto| |read_request..]];
           intros v Hv%(carries_post _ _ _ members Hm Hbody); congruence).
    destruct (dict_get members "session" JNull) as [| | |token| |] eqn:Htoken;
      try (apply (Hwithout "session" forbidden); [auto| |read_request..];
           intros v Hv%(carries_post _ _ _ members Hm Hbody); congruence).
    apply (Hchecked key token); [| |read_request..];
      apply (carries_post _ _ _ members Hm Hbody); assumption.
  - (* any other method *)
    apply (Hwithout "key" forbidden); [auto| |read_request..].
    intros v [[H _]|[H _]]; congruence.
Qed.

(** A request that carries a text key and a text token is checked. *)
Lemma gate_reads f req w key token :
  carries req "key" key -> carries req "session" token ->
  __authenticated uuid5_url f req w
  = if String.eqb token (__session_key uuid5_url key) then
      match __session_data token (sessions w) with
      | Some data => f (dict_get data "canUpdate" (JBool false)) req w
      | None => (forbidden, w)
      end
    else (forbidden, w).
Proof.
  intros Hkey Htoken. destruct (method req) eqn:Hm.
  - apply carries_get in Hkey, Htoken; try exact Hm. read_request.
  - destruct Hkey as [[H _]|[_ (members & Hbody & Hkey)]]; [congruence|].
    apply (carries_post _ _ _ members Hm Hbody) in Htoken.
    assert (Hkey' : dict_get members "key" JNull = JStr key)
      by (unfold dict_get; rewrite Hkey; reflexivity).
    clear Hkey. read_request.
  - destruct Hkey as [[H _]|[H _]]; congruence.
Qed.



End ServerProperties.

(** The identity function stands in for the name hash and every key
    resolves to the test user. *)
Lemma unauthenticate_keeps_session_witness :
  dict_lookup test_user "error" = None
  /\ let login := {| method := GET; args := {["key" := "k1"]}; get_json := no_json |} in
     let w0 := {| db_file := None; sessions := ∅ |} in
     let w1 := snd (authenticate (fun k => k) (fun _ => test_user) login w0) in
     let w2 := snd (unauthenticate
                      {| method := GET; args := {["session" := "k1"]};
                         get_json := no_json |}
                      w1) in
     w2 = w1
     /\ __session_data (__session_key (fun k => k) "k1") (sessions w2)
        = Some test_user.
Proof.
  split; [reflexivity|].
  apply (unauthenticate_keeps_session (fun k => k) (fun _ => test_user) "k1"
           no_json
           {| method := GET; args := {["session" := "k1"]}; get_json := no_json |}
           {| db_file := None; sessions := ∅ |}).
  reflexivity.
Defined.


(** ** What the tables keep *)

(** X1. From the empty store, whatever is called and whatever fails, the
    annotation rows the store shows carry the identifiers 1, 2, ..., n in
    the order in which they were inserted: among them no identifier is used
    twice or skipped. *)
Theorem identifiers_are_consecutive (calls : list call) :
  let rows := annotations_table (visible (add_all calls (open_store None))) in
  map a_rowid rows = map Z.of_nat (seq 1 (length rows)).
Proof.
  apply (add_all_well_formed calls).
Qed.

Lemma add_all_appends calls : forall self,
  Forall keeps_transaction calls ->
  exists added,
    annotations_table (visible (add_all calls self))
    = (annotations_table (visible self) ++ added)%list.
Proof.
  induction calls as [|c calls IH]; intros self Hkeep.
  - exists []. symmetry. apply app_nil_r.
  - apply List.Forall_cons_iff in Hkeep as [Hc Hkeep]. simpl.
    destruct (IH (add_call self c) Hkeep) as [later ->].
    destruct (add_effect_appends _ _
                (add_annotation_effect self (at_time c) (failure c) (payload c) Hc))
      as [first Hfirst].
    unfold add_call. rewrite Hfirst, <- app_assoc. eexists. reflexivity.
Qed.

(** X2. The annotation rows of the file are only appended to.  For a store
    opened on any file and used for any calls, whatever fails during them:
    the rows the file holds before a further sequence of calls are the
    first rows it holds afterwards, unchanged and in the same order, and
    the store shows the rows of the file followed by those it has not
    committed.  As long as SQLite cancels no transaction, the rows the
    store shows are only appended to as well. *)
Theorem annotations_append_only (file : option database) (before calls : list call) :
  let self := add_all before (open_store file) in
  let self' := add_all calls self in
  (exists added pending,
      annotations_table (contents (stored self'))
      = (annotations_table (contents (stored self)) ++ added)%list
      /\ annotations_table (visible self')
         = (annotations_table (contents (stored self')) ++ pending)%list)
  /\ (Forall keeps_transaction calls ->
      exists added,
        annotations_table (visible self')
        = (annotations_table (visible self) ++ added)%list).
Proof.
  intros self self'. split; [|apply add_all_appends].
  destruct (add_all_grows file before calls)
    as (c & c' & Hdb & Hdb' & [[added Hadded] _] & [[pending Hpending] _]).
  fold self in Hdb, Hdb'. fold self' in Hdb'.
  exists added, pending. unfold stored, visible. rewrite Hdb, Hdb'. simpl.
  split; assumption.
Qed.

(** X3. No stored creator has a [canUpdate] member, and no stored annotation
    blob has a [created], [creator], [resource], [item] or [feature] member:
    these are taken out of the payload before the row is written. *)
Theorem stored_rows_are_clean (calls : list call) :
  Forall (fun row =>
            dict_lookup (a_creator row) "canUpdate" = None
            /\ Forall (fun k => dict_lookup (a_annotation row) k = None)
                 ["created"; "creator"; "resource"; "item"; "feature"])
    (annotations_table (visible (add_all calls (open_store None)))).
Proof.
  apply (add_all_well_formed calls).
Qed.

(** X4. From the empty store, the feature rows are in the order of the
    annotations that wrote them and no annotation wrote two; every feature
    row is of an annotation of the table, and one that is marked deleted is
    marked with the identifier of a later annotation of the table. *)
Theorem feature_rows_follow_annotations (calls : list call) :
  let d := visible (add_all calls (open_store None)) in
  StronglySorted Z.lt (map f_annotation (features_table d))
  /\ Forall (fun f =>
              1 <= f_annotation f <= Z.of_nat (length (annotations_table d))
              /\ match f_deleted f with
                 | Some by_id =>
                     f_annotation f < by_id
                     <= Z.of_nat (length (annotations_table d))
                 | None => True
                 end)
       (features_table d).
Proof.
  apply (add_all_well_formed calls).
Qed.

Lemma add_all_rows_kept calls : forall self n row,
  Forall keeps_transaction calls ->
  features_table (visible self) !! n = Some row ->
  exists shown,
    features_table (visible (add_all calls self)) !! n = Some shown
    /\ same_but_marked row shown.
Proof.
  induction calls as [|c calls IH]; intros self n row Hkeep Hn.
  - exists row. split; [exact Hn|apply same_but_marked_refl].
  - apply List.Forall_cons_iff in Hkeep as [Hc Hkeep]. simpl.
    destruct (features_step_row_kept _ _ n row
                (add_call_features_step self c Hc) Hn) as (mid & Hmid & Hsame).
    destruct (IH (add_call self c) n mid Hkeep Hmid) as (shown & Hshown & Hsame').
    exists shown. split; [exact Hshown|].
    exact (same_but_marked_trans _ _ _ Hsame Hsame').
Qed.

(** X5. Feature rows are never removed or reordered, and nothing of a row
    changes but a [deleted] mark that was null.  For a store opened on any
    file and used for any calls, whatever fails during them: a row the file
    holds before a further sequence of calls is at the same place in the
    file afterwards, the same up to a mark that was null, and the store
    shows it there, the same up to a mark that is null in the file.  As
    long as SQLite cancels no transaction, the same holds of a row the
    store shows. *)
Theorem feature_rows_are_kept (file : option database) (before calls : list call)
    (n : nat) (row : feature_row) :
  let self := add_all before (open_store file) in
  let self' := add_all calls self in
  (features_table (contents (stored self)) !! n = Some row ->
   exists kept shown,
     features_table (contents (stored self')) !! n = Some kept
     /\ same_but_marked row kept
     /\ features_table (visible self') !! n = Some shown
     /\ same_but_marked kept shown)
  /\ (features_table (visible self) !! n = Some row ->
      Forall keeps_transaction calls ->
      exists shown,
        features_table (visible self') !! n = Some shown
        /\ same_but_marked row shown).
Proof.
  intros self self'. split.
  - destruct (add_all_grows file before calls)
      as (c & c' & Hdb & Hdb' & [_ Hfile] & [_ Hseen]).
    fold self in Hdb, Hdb'. fold self' in Hdb'.
    unfold stored, visible. rewrite Hdb, Hdb'. simpl. intros Hn.
    destruct (Hfile n row Hn) as (kept & Hkept & Hsame).
    destruct (Hseen n kept Hkept) as (shown & Hshown & Hsame').
    exists kept, shown. repeat split; try assumption; apply Hsame || apply Hsame'.
  - intros Hn Hkeep. apply add_all_rows_kept; assumption.
Qed.

Lemma feature_rows_are_kept_witness :
  let row := {| f_resource := "map1"; f_item := "itemA"; f_deleted := None;
                f_annotation := 1; f_feature := point_feature |} in
  let self := add_all [calling "2023-05-01T10:00:00+00:00" feature_on_itemA]
                (open_store None) in
  let self' := add_all [calling "2023-05-01T11:00:00+00:00" comment_on_itemA;
                        calling_with full_disk_at_feature
                          "2023-05-01T12:00:00+00:00" feature_on_itemA]
                 self in
  features_table (contents (stored self)) !! 0%nat = Some row
  /\ exists kept shown,
       features_table (contents (stored self')) !! 0%nat = Some kept
       /\ same_but_marked row kept
       /\ features_table (visible self') !! 0%nat = Some shown
       /\ same_but_marked kept shown.
Proof.
  intros row self self'. split; [reflexivity|].
  apply (proj1 (feature_rows_are_kept None
                  [calling "2023-05-01T10:00:00+00:00" feature_on_itemA]
                  [calling "2023-05-01T11:00:00+00:00" comment_on_itemA;
                   calling_with full_disk_at_feature
                     "2023-05-01T12:00:00+00:00" feature_on_itemA]
                  0 row)).
  reflexivity.
Defined.

(** ** Item listings *)

Lemma existsb_eqb_In x l : existsb (String.eqb x) l = true <-> In x l.
Proof.
  rewrite existsb_exists. split.
  - intros (y & Hy & Heq). apply String.eqb_eq in Heq. subst. exact Hy.
  - intros Hin. exists x. split; [exact Hin|apply String.eqb_refl].
Qed.

Lemma distinct_In x l : In x (distinct l) <-> In x l.
Proof.
  induction l as [|y l IH]; simpl; [tauto|].
  destruct (existsb (String.eqb y) l) eqn:Hy.
  - apply existsb_eqb_In in Hy. rewrite IH. split; [auto|].
    intros [<-|Hin]; assumption.
  - simpl. rewrite IH. tauto.
Qed.

Lemma distinct_NoDup l : List.NoDup (distinct l).
Proof.
  induction l as [|y l IH]; simpl; [constructor|].
  destruct (existsb (String.eqb y) l) eqn:Hy; [exact IH|].
  constructor; [|exact IH].
  rewrite distinct_In, <- existsb_eqb_In, Hy. discriminate.
Qed.

Lemma string_leb_trans s t u :
  String.leb s t = true -> String.leb t u = true -> String.leb s u = true.
Proof. rewrite !string_leb_text_le. apply text_le_trans. Qed.

Lemma sorted_distinct_strict l :
  StronglySorted (fun s t => String.leb s t = true) l -> List.NoDup l ->
  StronglySorted text_lt l.
Proof.
  induction 1 as [|x l _ IH Hall]; intros Hnodup; [constructor|].
  apply List.NoDup_cons_iff in Hnodup as [Hx Hnodup].
  constructor; [apply IH, Hnodup|].
  apply List.Forall_forall. intros y Hy.
  rewrite List.Forall_forall in Hall. specialize (Hall y Hy).
  apply string_leb_text_le, text_le_cases in Hall as [Hlt | ->];
    [exact Hlt|contradiction].
Qed.

(** Sorted, each once, and with exactly the members of the list sorted. *)
Lemma sorted_distinct_spec l :
  StronglySorted text_lt (order_by String.leb (distinct l))
  /\ forall x, In x (order_by String.leb (distinct l)) <-> In x l.
Proof.
  pose proof (order_by_permutation String.leb (distinct l)) as Hperm.
  split.
  - apply sorted_distinct_strict.
    + apply order_by_sorted; [apply String.leb_total|apply string_leb_trans].
    + eapply Permutation_NoDup; [symmetry; exact Hperm|apply distinct_NoDup].
  - intros x. split; intros Hx.
    + apply distinct_In. eapply Permutation_in; [exact Hperm|exact Hx].
    + eapply Permutation_in; [symmetry; exact Hperm|apply distinct_In, Hx].
Qed.

Lemma in_map_filter {A} (f : A -> string) (p : A -> bool) l x :
  In x (map f (List.filter p l)) <-> exists a, In a l /\ p a = true /\ f a = x.
Proof.
  rewrite in_map_iff. split.
  - intros (a & Hfa & Hin). apply filter_In in Hin as [Hin Hp]. eauto.
  - intros (a & Hin & Hp & Hfa). exists a. split; [exact Hfa|].
    apply filter_In. auto.
Qed.

(** X6. [annotated_items] lists the items of the resource in strictly
    ascending text order, so each once, and an item is listed exactly when
    some annotation row of the resource is about it. *)
Theorem annotated_items_sorted_distinct (self : AnnotationStore) (resource_id : string) :
  exists items,
    annotated_items self resource_id
    = [("resource", JStr resource_id); ("items", JArr (map JStr items))]
    /\ StronglySorted text_lt items
    /\ forall item,
         In item items
         <-> exists row, In row (annotations_table (visible self))
                         /\ a_resource row = resource_id /\ a_item row = item.
Proof.
  exists (resource_items self resource_id). split; [reflexivity|].
  unfold resource_items, visible. destruct (db self) as [c|].
  - destruct (sorted_distinct_spec
                (map a_item
                   (List.filter (fun a => String.eqb (a_resource a) resource_id)
                      (annotations_table (working c))))) as [Hsorted Hin].
    split; [exact Hsorted|]. intros item. rewrite Hin, in_map_filter.
    split; intros (row & Hrow & Hres & Hitem); exists row;
      (split; [exact Hrow|]); (split; [|exact Hitem]);
      apply String.eqb_eq; exact Hres.
  - split; [constructor|]. intros item. simpl.
    split; [contradiction|intros (row & [] & _)].
Qed.





(** ** Feature listings *)

Section OrderByFilter.

Context {A : Type}.
Variable leb : A -> A -> bool.
Variable p : A -> bool.
Hypothesis leb_total : forall x y, leb x y = true \/ leb y x = true.
Hypothesis leb_trans : forall x y z, leb x y = true -> leb y z = true -> leb x z = true.





End OrderByFilter.









(** ** The current feature after a call *)

Lemma order_by_singleton {A} (leb : A -> A -> bool) x : order_by leb [x] = [x].
Proof. reflexivity. Qed.




(** ** A single annotation, in a store built by [add_annotation] *)

Lemma identifiers_NoDup d :
  identifiers_in_order d -> List.NoDup (map a_rowid (annotations_table d)).
Proof.
  unfold identifiers_in_order. intros ->.
  apply Finite.Injective_map_NoDup; [intros x y; apply Nat2Z.inj|apply seq_NoDup].
Qed.

Lemma filter_one_feature id fs :
  StronglySorted Z.lt (map f_annotation fs) ->
  List.filter (fun f => f_annotation f =? id) fs
  = match List.find (fun f => f_annotation f =? id) fs with
    | Some f => [f]
    | None => []
    end.
Proof.
  induction fs as [|f fs IH]; simpl; intros Hsorted; [reflexivity|].
  apply StronglySorted_inv in Hsorted as [Hsorted Hall].
  destruct (f_annotation f =? id) eqn:Hf; [|apply IH, Hsorted].
  f_equal. apply Z.eqb_eq in Hf.
  clear IH Hsorted. induction fs as [|g fs IH]; simpl; [reflexivity|].
  simpl in Hall. apply List.Forall_cons_iff in Hall as [Hg Hall].
  destruct (Z.eqb_spec (f_annotation g) id); [lia|apply IH, Hall].
Qed.

Lemma select_unknown id ans fs :
  (forall a, In a ans -> a_rowid a <> id) ->
  List.filter (fun af =>
      (a_rowid (fst af) =? id)
      && match snd af with
         | None => true
         | Some f => is_null (f_deleted f)
         end) (left_join ans fs) = [].
Proof.
  intros Hunknown.
  destruct (List.filter _ (left_join ans fs)) as [|[a f] rest] eqn:Hsel;
    [reflexivity|].
  assert (Hin : In (a, f) ((a, f) :: rest)) by (left; reflexivity).
  rewrite <- Hsel in Hin. apply filter_In in Hin as [Hin Hsat]. simpl in Hsat.
  apply andb_true_iff in Hsat as [Hid%Z.eqb_eq _].
  apply left_join_fst in Hin. exfalso. exact (Hunknown a Hin Hid).
Qed.

Lemma select_known id ans fs :
  List.NoDup (map a_rowid ans) ->
  StronglySorted Z.lt (map f_annotation fs) ->
  List.filter (fun af =>
      (a_rowid (fst af) =? id)
      && match snd af with
         | None => true
         | Some f => is_null (f_deleted f)
         end) (left_join ans fs)
  = match List.find (fun a => a_rowid a =? id) ans with
    | None => []
    | Some a =>
        match List.find (fun f => f_annotation f =? id) fs with
        | None => [(a, None)]
        | Some f => if is_null (f_deleted f) then [(a, Some f)] else []
        end
    end.
Proof.
  intros Hnodup Hsorted. induction ans as [|a ans IH]; [reflexivity|].
  simpl in Hnodup. apply List.NoDup_cons_iff in Hnodup as [Ha Hnodup].
  change (left_join (a :: ans) fs)
    with ((match List.filter (fun f => f_annotation f =? a_rowid a) fs with
           | [] => [(a, None)]
           | matched => map (fun f => (a, Some f)) matched
           end ++ left_join ans fs)%list).
  rewrite List.filter_app. simpl List.find.
  destruct (Z.eqb_spec (a_rowid a) id) as [Hid|Hid].
  - rewrite (select_unknown id ans fs), app_nil_r.
    + subst id. rewrite (filter_one_feature (a_rowid a) fs Hsorted).
      destruct (List.find _ fs) as [f|]; simpl; rewrite Z.eqb_refl; simpl;
        [destruct (is_null (f_deleted f))|]; reflexivity.
    + intros b Hb Heq. apply Ha. rewrite Hid, <- Heq. apply in_map, Hb.
  - rewrite <- (IH Hnodup).
    replace (List.filter _ match List.filter _ fs with
                           | [] => [(a, None)]
                           | _ => _
                           end) with (@nil (annotation_row * option feature_row));
      [reflexivity|].
    symmetry. apply Z.eqb_neq in Hid.
    destruct (List.filter _ fs) as [|f matched]; simpl; rewrite Hid; simpl;
      [reflexivity|].
    induction matched as [|g matched IHm]; simpl; [reflexivity|].
    rewrite Hid. simpl. exact IHm.
Qed.

(** X12. In a store built from the empty one by [add_annotation] calls,
    [annotation(id)] is decided as follows: no row with that identifier, the
    empty record; a row that never wrote a feature, its record with a null
    [feature]; a row whose feature is still current, its record with that
    feature; a row whose feature has been superseded, the empty record. *)
Theorem annotation_decided (calls : list call) (id : Z) :
  let self := add_all calls (open_store None) in
  annotation self id
  = match List.find (fun a => a_rowid a =? id) (annotations_table (visible self)) with
    | None => []
    | Some a =>
        match List.find (fun f => f_annotation f =? id)
                (features_table (visible self)) with
        | None => annotation_with_feature a JNull
        | Some f =>
            match f_deleted f with
            | None => annotation_with_feature a (JObj (f_feature f))
            | Some _ => []
            end
        end
    end.
Proof.
  intros self.
  destruct (add_all_well_formed calls) as (Hids & [Hsorted _] & _).
  fold self in Hids, Hsorted. apply identifiers_NoDup in Hids.
  unfold annotation, visible in *. destruct (db self) as [c|]; [|reflexivity].
  cbv zeta. rewrite (select_known id _ _ Hids Hsorted).
  destruct (List.find _ (annotations_table (working c))) as [a|] eqn:Ha;
    [|reflexivity].
  apply List.find_some in Ha as [_ Ha]. apply Z.eqb_eq in Ha. subst id.
  destruct (List.find _ (features_table (working c))) as [f|];
    [destruct (f_deleted f)|]; reflexivity.
Qed.

(** ** Reading back what a call wrote *)

Lemma dict_lookup_set_ne d k k' v :
  String.eqb k k' = false -> dict_lookup (dict_set d k' v) k = dict_lookup d k.
Proof.
  intros Hne. induction d as [|[k0 v0] d IH]; simpl; [rewrite Hne; reflexivity|].
  destruct (String.eqb_spec k' k0) as [->|Hk0]; simpl.
  - rewrite Hne. reflexivity.
  - rewrite IH. reflexivity.
Qed.

(** A member the update does not have keeps its value. *)
Lemma dict_lookup_update_other d e k :
  dict_lookup e k = None -> dict_lookup (dict_update d e) k = dict_lookup d k.
Proof.
  unfold dict_update. revert d. induction e as [|[k' v] e IH]; intros d Hnone;
    [reflexivity|].
  simpl in *. destruct (String.eqb k k') eqn:Hk; [discriminate|].
  rewrite (IH _ Hnone). apply dict_lookup_set_ne, Hk.
Qed.

Lemma popped_not_stored annotation k :
  In k popped -> dict_lookup (fold_left dict_remove popped annotation) k = None.
Proof.
  unfold popped. simpl.
  intros [<-|[<-|[<-|[<-|[<-|[]]]]]];
    repeat first [apply dict_lookup_remove_eq | apply dict_lookup_remove_none].
Qed.

Lemma order_by_insert_permutation {A} (leb : A -> A -> bool) (p : A -> bool) l x :
  p x = true ->
  Permutation (order_by leb (List.filter p (l ++ [x])))
    (x :: order_by leb (List.filter p l)).
Proof.
  intros Hx. rewrite !order_by_permutation, List.filter_app. simpl. rewrite Hx.
  symmetry. apply Permutation_cons_append.
Qed.



Lemma find_last {A} (p : A -> bool) l y :
  (forall x, In x l -> p x = false) -> p y = true ->
  List.find p (l ++ [y]) = Some y.
Proof.
  intros Hl Hy. induction l as [|x l IH]; simpl; [rewrite Hy; reflexivity|].
  rewrite (Hl x) by (left; reflexivity). apply IH.
  intros z Hz. apply Hl. right. exact Hz.
Qed.

Lemma find_nowhere {A} (p : A -> bool) l :
  (forall x, In x l -> p x = false) -> List.find p l = None.
Proof.
  intros Hl. induction l as [|x l IH]; simpl; [reflexivity|].
  rewrite (Hl x) by (left; reflexivity). apply IH.
  intros z Hz. apply Hl. right. exact Hz.
Qed.

Lemma identifiers_bounded d a :
  identifiers_in_order d -> In a (annotations_table d) ->
  a_rowid a <= Z.of_nat (length (annotations_table d)).
Proof.
  intros Hids Ha. apply (in_map a_rowid) in Ha. rewrite Hids in Ha.
  apply in_map_iff in Ha as (k & <- & Hk). apply in_seq in Hk. lia.
Qed.

(** X14. In a store built from the empty one, after one more call that
    returns an [annotationId], [annotation] of that identifier answers with
    the record of the new row: its [feature] is the payload's feature when
    that is a non-empty object and null otherwise, and its [resource] and
    [item] are the payload's. *)
Theorem annotation_after_add (calls : list call) (self' : AnnotationStore)
    (now : string) (entry result : dict) (id : Z) (resource item : string) :
  add_annotation (add_all calls (open_store None)) now None entry
  = (Returned result, self') ->
  dict_lookup result "annotationId" = Some (JNum id) ->
  sql_text (dict_get entry "resource" JNull) = Some resource ->
  sql_text (dict_get entry "item" JNull) = Some item ->
  dict_lookup (annotation self' id) "feature"
  = Some match dict_get entry "feature" JNull with
         | JObj (m :: members) => JObj (m :: members)
         | _ => JNull
         end
  /\ dict_lookup (annotation self' id) "resource" = Some (JStr resource)
  /\ dict_lookup (annotation self' id) "item" = Some (JStr item).
Proof.
  intros Hadd Hid Hres Hitem.
  set (self := add_all calls (open_store None)) in *.
  pose proof (add_all_well_formed calls) as Hwf.
  fold self in Hwf.
  pose proof (add_effect_well_formed _ _
                (add_annotation_effect self now None entry I) Hwf) as Hwf'.
  rewrite Hadd in Hwf'. simpl snd in Hwf'.
  destruct (add_annotation_accepted _ _ _ _ _ _ Hadd Hid)
    as (c & row & creator & Hdb & Hrow & Hnext & Hr & Hi & _ & _ & _
        & _ & Hblob & ->).
  rewrite Hres in Hr. injection Hr as Hr. rewrite Hitem in Hi. injection Hi as Hi.
  destruct Hwf as (Hids & [_ Hrefs] & _).
  destruct Hwf' as (Hids' & [Hsorted' _] & _).
  apply identifiers_NoDup in Hids'.
  unfold visible in Hids, Hrefs, Hids', Hsorted'. rewrite Hdb in Hids, Hrefs.
  simpl in Hids', Hsorted'.
  rewrite (next_rowid_in_order _ Hids) in Hnext.
  assert (Hold : forall a, In a (annotations_table (working c)) ->
                           (a_rowid a =? id) = false).
  { intros a Ha. apply Z.eqb_neq.
    pose proof (identifiers_bounded _ a Hids Ha). lia. }
  assert (Hfold : forall f,
            In f (map (supersede id (a_resource row) (a_item row))
                    (features_table (working c))) ->
            (f_annotation f =? id) = false).
  { intros f Hf. apply in_map_iff in Hf as (g & <- & Hg).
    rewrite supersede_annotation. apply Z.eqb_neq.
    rewrite List.Forall_forall in Hrefs. destruct (Hrefs g Hg) as [Hbound _]. lia. }
  assert (Hkey : forall k, In k popped -> dict_lookup (a_annotation row) k = None)
    by (intros k Hk; rewrite Hblob; apply popped_not_stored, Hk).
  unfold annotation. simpl db. cbv beta iota zeta.
  destruct (dict_get entry "feature" JNull) as [| | | | |[|m members]];
    simpl working in *; simpl annotations_table in *; simpl features_table in *;
    rewrite (select_known id _ _ Hids' Hsorted');
    rewrite (find_last _ _ row Hold) by (apply Z.eqb_eq, Hrow);
    try (rewrite (find_nowhere _ _ Hfold);
         rewrite !dict_lookup_update_other
           by (apply Hkey; unfold popped; simpl; tauto);
         rewrite Hr, Hi; repeat split; reflexivity).
  rewrite (find_last _ _ (feature_of row (m :: members)) Hfold)
    by (apply Z.eqb_eq, Hrow).
  simpl.
  rewrite !dict_lookup_update_other
    by (apply Hkey; unfold popped; simpl; tauto).
  rewrite Hr, Hi. repeat split; reflexivity.
Qed.

Lemma annotation_after_add_witness :
  add_annotation (add_all [] (open_store None)) "2023-05-01T10:00:00+00:00" None
    feature_on_itemA
  = (Returned [("annotationId", JNum 1)],
     add_all [calling "2023-05-01T10:00:00+00:00" feature_on_itemA] (open_store None))
  /\ dict_lookup
       (annotation
          (add_all [calling "2023-05-01T10:00:00+00:00" feature_on_itemA]
             (open_store None)) 1) "feature"
     = Some match dict_get feature_on_itemA "feature" JNull with
            | JObj (m :: members) => JObj (m :: members)
            | _ => JNull
            end
  /\ dict_lookup
       (annotation
          (add_all [calling "2023-05-01T10:00:00+00:00" feature_on_itemA]
             (open_store None)) 1) "resource" = Some (JStr "map1")
  /\ dict_lookup
       (annotation
          (add_all [calling "2023-05-01T10:00:00+00:00" feature_on_itemA]
             (open_store None)) 1) "item" = Some (JStr "itemA").
Proof.
  split; [reflexivity|].
  apply (annotation_after_add []
           (add_all [calling "2023-05-01T10:00:00+00:00" feature_on_itemA]
              (open_store None))
           "2023-05-01T10:00:00+00:00" feature_on_itemA
           [("annotationId", JNum 1)] 1 "map1" "itemA"); reflexivity.
Defined.

(** ** Logging in and passing the gate *)

Section RouteProperties.

Variable uuid5_url : string -> string.
Variable get_user : string -> dict.

(** X15. After [authenticate] has accepted a key, a GET or POST request
    that carries the key and the token of the answer passes the gate, and
    the view runs with the [canUpdate] member of what [get_user] gave for
    the key; the answer of [authenticate] carries that token and data. *)
Theorem login_then_gate (key : string) (login req : request) (w : world) (f : view) :
  args login !! "key" = Some key ->
  dict_lookup (get_user key) "error" = None ->
  carries req "key" key ->
  carries req "session" (__session_key uuid5_url key) ->
  let '(answer, w1) := authenticate uuid5_url get_user login w in
  answer = {| status := 200;
              body := JObj [("session", JStr (__session_key uuid5_url key));
                            ("data", JObj (get_user key))] |}
  /\ db_file w1 = db_file w
  /\ __authenticated uuid5_url f req w1
     = f (dict_get (get_user key) "canUpdate" (JBool false)) req w1.
Proof.
  intros Hkey Hok Hk Hs. unfold authenticate. rewrite Hkey, Hok. simpl.
  repeat split.
  rewrite (gate_reads uuid5_url f req _ key _ Hk Hs), String.eqb_refl.
  unfold __session_data. simpl. rewrite lookup_insert_eq. reflexivity.
Qed.

(** X16. [authenticate] without a key, or with a key for which [get_user]
    answers with an [error] member, answers 403 and creates no session: the
    registry and the database file are as before. *)
Theorem failed_login_creates_nothing (login : request) (w : world) :
  (args login !! "key" = None
   \/ exists key, args login !! "key" = Some key
                  /\ dict_lookup (get_user key) "error" <> None) ->
  status (fst (authenticate uuid5_url get_user login w)) = 403
  /\ snd (authenticate uuid5_url get_user login w) = w.
Proof.
  unfold authenticate. intros [->|(key & -> & Herr)]; [split; reflexivity|].
  destruct (dict_lookup (get_user key) "error"); [split; reflexivity|contradiction].
Qed.

(** X17. The gate reads the key and the token from the query string of a
    GET and from the members of the JSON object that is the body of a POST,
    and from nowhere for any other method: a GET whose query string lacks
    one of them, whatever its body, a POST whose body is an object that
    lacks one of them, whatever its query string, and a HEAD request are
    answered 403; the view does not run and nothing changes. *)
Theorem gate_reads_by_method (f : view) (req : request) (w : world) :
  (method req = HEAD
   \/ (method req = GET
       /\ (args req !! "key" = None \/ args req !! "session" = None))
   \/ (method req = POST
       /\ exists members,
            get_json req = body_value (JObj members)
            /\ (dict_lookup members "key" = None
                \/ dict_lookup members "session" = None))) ->
  __authenticated uuid5_url f req w = (forbidden, w).
Proof.
  intros [Hm|[[Hm Hnone]|[Hm (members & Hbody & Hnone)]]].
  - read_request.
  - destruct Hnone as [Hnone|Hnone].
    + read_request.
    + destruct (args req !! "key") eqn:Hkey; read_request.
  - assert (Hget : forall name, dict_lookup members name = None ->
                                dict_get members name JNull = JNull)
      by (intros name H; unfold dict_get; rewrite H; reflexivity).
    destruct Hnone as [Hnone%Hget|Hnone%Hget].
    + read_request.
    + destruct (dict_get members "key" JNull) eqn:Hkey; read_request.
Qed.

End RouteProperties.

(** ** The route that writes *)

Lemma transaction_error_stored ft c resource item created orcid creator ann feature :
  match transaction ft c resource item created orcid creator ann feature with
  | (Returned result, self') =>
      dict_lookup result "error" <> None -> stored self' = Some (committed c)
  | (Raised e, self') => stored self' = Some (committed c)
  end.
Proof.
  unfold transaction, on_exception.
  repeat match goal with
  | |- context [match execute ?ft ?st with Some _ => _ | None => _ end] =>
      destruct (execute ft st)
  | |- context [if is_operational ?e then _ else _] =>
      destruct (is_operational e)
  | |- context [match ?v with JObj _ => _ | _ => _ end] => destruct v
  | |- context [match ?m with [] => _ | _ :: _ => _ end] => destruct m
  | |- _ => progress simpl
  end;
  try reflexivity; try (intros _; reflexivity); intros Herr; contradiction.
Qed.

Lemma add_annotation_error_stored self now ft annotation :
  match add_annotation self now ft annotation with
  | (Returned result, self') =>
      dict_lookup result "error" <> None -> stored self' = stored self
  | (Raised e, self') => stored self' = stored self
  end.
Proof.
  through_guards ltac:(solve [reflexivity | intros _; reflexivity]).
  match goal with
  | |- context [transaction ?ft ?c ?r ?i ?cr ?o ?creator ?ann ?feature] =>
      pose proof (transaction_error_stored ft c r i cr o creator ann feature)
        as Htx
  end.
  unfold stored at 2 4. rewrite Hdb. exact Htx.
Qed.

Section WritingRoute.

Variable uuid5_url : string -> string.

(** X18. A request to the [add_annotation] route changes the annotation
    database only if it is a POST that passes the gate with a session whose
    [canUpdate] is true: in every other case the tables of the file and the
    registry are what they were. *)
Theorem no_write_without_permission (now : string) (ft : option fault)
    (data : dict) (req : request) (w : world) :
  (exists session,
      passes_gate uuid5_url req w session
      /\ truthy (dict_get session "canUpdate" (JBool false)) = true
      /\ method req = POST)
  \/ (contents
        (db_file (snd (__authenticated uuid5_url
                         (add_annotation_view now ft data) req w)))
      = contents (db_file w)
      /\ sessions (snd (__authenticated uuid5_url
                          (add_annotation_view now ft data) req w))
         = sessions w).
Proof.
  destruct (gate_outcome uuid5_url (add_annotation_view now ft data) req w)
    as [(session & Hpass & ->)|[_ ->]]; [|right; split; reflexivity].
  unfold add_annotation_view.
  destruct (method req) eqn:Hmethod; simpl is_post; cbv beta iota;
    try (right; split; [destruct (db_file w)|]; reflexivity).
  destruct (truthy (dict_get session "canUpdate" (JBool false))) eqn:Hupdate;
    [|right; split; [destruct (db_file w)|]; reflexivity].
  left. exists session. split; [exact Hpass|]. split; [exact Hupdate|reflexivity].
Qed.

End WritingRoute.

(** X19. When the [add_annotation] view answers with an [error] member or
    with a 500, the database file holds exactly what it held before the
    request (the empty tables if it did not exist): a failed write leaves
    nothing behind once the request is over. *)
Theorem failed_post_leaves_file (now : string) (ft : option fault) (data : dict)
    (update : json) (req : request) (w : world) :
  status (fst (add_annotation_view now ft data update req w)) = 500
  \/ (exists result,
         body (fst (add_annotation_view now ft data update req w)) = JObj result
         /\ dict_lookup result "error" <> None) ->
  db_file (snd (add_annotation_view now ft data update req w))
  = Some (contents (db_file w)).
Proof.
  unfold add_annotation_view.
  destruct (is_post (method req) && truthy update);
    [|intros _; destruct (db_file w); reflexivity].
  pose proof (add_annotation_error_stored (open_store (db_file w)) now ft data)
    as Hstored.
  destruct (add_annotation (open_store (db_file w)) now ft data)
    as [[result|e] self']; simpl.
  - intros [Hstatus|(result' & Hbody & Herr)]; [discriminate|].
    injection Hbody as <-. rewrite (Hstored Herr).
    destruct (db_file w); reflexivity.
  - intros _. rewrite Hstored. destruct (db_file w); reflexivity.
Qed.

(** X20. After a POST through the [add_annotation] view that answers with
    an [annotationId] and no failure of the store, the download route lists
    what it listed before and one more record, which carries the payload's
    resource and item. *)
Theorem post_then_download (now : string) (data result : dict) (update : json)
    (req req' : request) (w : world) (id : Z) (resource item : string) :
  body (fst (add_annotation_view now None data update req w)) = JObj result ->
  dict_lookup result "annotationId" = Some (JNum id) ->
  sql_text (dict_get data "resource" JNull) = Some resource ->
  sql_text (dict_get data "item" JNull) = Some item ->
  exists record before after,
    fst (download req' w) = jsonify (JArr (map JObj before))
    /\ fst (download req' (snd (add_annotation_view now None data update req w)))
       = jsonify (JArr (map JObj after))
    /\ Permutation after (record :: before)
    /\ dict_lookup record "resource" = Some (JStr resource)
    /\ dict_lookup record "item" = Some (JStr item).
Proof.
  unfold add_annotation_view.
  destruct (is_post (method req) && truthy update); [|discriminate].
  destruct (add_annotation (open_store (db_file w)) now None data)
    as [[result'|e] self'] eqn:Hadd; [|discriminate].
  simpl. intros Hbody Hid Hres Hitem. injection Hbody as ->.
  destruct (add_annotation_accepted _ _ _ _ _ _ Hadd Hid)
    as (c & row & creator & Hdb & _ & _ & Hr & Hi & _ & _ & _ & _ & Hblob & ->).
  rewrite Hres in Hr. injection Hr as Hr. rewrite Hitem in Hi. injection Hi as Hi.
  simpl in Hdb. injection Hdb as <-.
  exists (annotation_record row),
    (annotations (open_store (db_file w)) None None).
  eexists. split; [reflexivity|]. split; [reflexivity|].
  assert (Hkey : forall k, In k popped -> dict_lookup (a_annotation row) k = None)
    by (intros k Hk; rewrite Hblob; apply popped_not_stored, Hk).
  split.
  - unfold download, annotations, stored. simpl.
    replace (annotations_table _)
      with (annotations_table (contents (db_file w)) ++ [row])%list
      by (destruct (dict_get data "feature" JNull) as [| | | | |[|m ms]];
          destruct (db_file w); reflexivity).
    change (annotation_record row :: map annotation_record ?l)
      with (map annotation_record (row :: l)).
    apply Permutation_map.
    replace (match db_file w with Some d => d | None => empty_database end)
      with (contents (db_file w)) by reflexivity.
    apply (order_by_insert_permutation created_desc_creator
             (annotation_matches None None)). reflexivity.
  - unfold annotation_record.
    rewrite !dict_lookup_update_other
      by (apply Hkey; unfold popped; simpl; tauto).
    rewrite Hr, Hi. split; reflexivity.
Qed.


(** ** Identifiers of the map server *)

Lemma init_last_none s : init_last s = None <-> s = EmptyString.
Proof.
  destruct s as [|a s]; simpl; [tauto|].
  destruct (init_last s) as [[init last]|]; split; discriminate.
Qed.

Lemma append_cons a s t : String a s +:+ t = String a (s +:+ t).
Proof. reflexivity. Qed.

Lemma append_nil t : EmptyString +:+ t = t.
Proof. reflexivity. Qed.

Lemma init_last_append s init last :
  init_last s = Some (init, last) -> s = init +:+ String last EmptyString.
Proof.
  revert init last. induction s as [|a s IH]; intros init last; simpl;
    [discriminate|].
  destruct (init_last s) as [[init' last']|] eqn:Hs.
  - intros H. injection H as <- <-. rewrite append_cons. f_equal.
    apply IH. reflexivity.
  - intros H. injection H as <- <-. apply init_last_none in Hs. subst s.
    reflexivity.
Qed.

Lemma init_last_of_append init last :
  init_last (init +:+ String last EmptyString) = Some (init, last).
Proof.
  induction init as [|a init IH]; [reflexivity|].
  rewrite append_cons. simpl. rewrite IH. reflexivity.
Qed.

Lemma normalise_part_none s : normalise_part s = None <-> s = EmptyString.
Proof.
  unfold normalise_part. rewrite <- init_last_none.
  destruct (init_last s) as [[init last]|]; split; congruence.
Qed.

Lemma each_part_none parts : each_part parts = None <-> In EmptyString parts.
Proof.
  induction parts as [|s parts IH]; simpl; [split; [discriminate|contradiction]|].
  destruct (normalise_part s) as [t|] eqn:Hs.
  - assert (Hne : s <> EmptyString) by (intros ->; discriminate).
    destruct (each_part parts) as [ts|].
    + split; [discriminate|]. intros [Heq|Hin]; [congruence|].
      apply IH in Hin. discriminate.
    + split; [intros _; right; apply IH; reflexivity|reflexivity].
  - apply normalise_part_none in Hs. subst s. split; [left|]; reflexivity.
Qed.

(** X21. [normalise_identifier] raises exactly when one of the parts
    between the colons is empty, as for the empty text, a colon at either
    end or two colons in a row. *)
Theorem normalise_identifier_raises (id : string) :
  normalise_identifier id = None <-> In EmptyString (split_on ":"%char id).
Proof.
  unfold normalise_identifier. rewrite <- each_part_none.
  destruct (each_part (split_on ":"%char id)); split; congruence.
Qed.

Lemma split_on_cons c s : exists part parts, split_on c s = part :: parts.
Proof.
  destruct s as [|a s]; simpl; [eauto|].
  destruct (Ascii.eqb a c); [eauto|]. destruct (split_on c s); eauto.
Qed.

Lemma join_cons_cons sep x y l : join sep (x :: y :: l) = x +:+ sep +:+ join sep (y :: l).
Proof. reflexivity. Qed.

Lemma join_head a sep part parts :
  join sep (String a part :: parts) = String a (join sep (part :: parts)).
Proof. destruct parts; reflexivity. Qed.

(** Joining the parts gives the text back. *)
Lemma join_split c s : join (String c EmptyString) (split_on c s) = s.
Proof.
  induction s as [|a s IH]; [reflexivity|]. simpl.
  destruct (Ascii.eqb_spec a c) as [->|Hne].
  - destruct (split_on_cons c s) as (part & parts & Hs). rewrite Hs in *.
    rewrite join_cons_cons, IH. reflexivity.
  - destruct (split_on_cons c s) as (part & parts & Hs). rewrite Hs in *.
    rewrite join_head, IH. reflexivity.
Qed.

Lemma split_on_plain c x : has_char c x = false -> split_on c x = [x].
Proof.
  induction x as [|a x IH]; simpl; [reflexivity|].
  intros Hx. apply orb_false_iff in Hx as [Ha Hx]. rewrite Ha, (IH Hx). reflexivity.
Qed.

Lemma split_on_append c x rest :
  has_char c x = false ->
  split_on c (x +:+ String c rest) = x :: split_on c rest.
Proof.
  induction x as [|a x IH]; intros Hx.
  - rewrite append_nil. simpl. rewrite Ascii.eqb_refl. reflexivity.
  - simpl in Hx. apply orb_false_iff in Hx as [Ha Hx].
    rewrite append_cons. simpl. rewrite Ha, (IH Hx). reflexivity.
Qed.

(** Splitting what was joined gives the parts back, when no part has the
    separator in it. *)
Lemma split_join c part parts :
  Forall (fun p => has_char c p = false) (part :: parts) ->
  split_on c (join (String c EmptyString) (part :: parts)) = part :: parts.
Proof.
  revert part. induction parts as [|next parts IH]; intros part Hall.
  - apply split_on_plain. apply List.Forall_inv in Hall. exact Hall.
  - apply List.Forall_cons_iff in Hall as [Hpart Hall].
    rewrite join_cons_cons.
    change (String c EmptyString +:+ ?t) with (String c t).
    rewrite (split_on_append c part _ Hpart), (IH next Hall). reflexivity.
Qed.

Lemma split_on_no_char c s :
  Forall (fun p => has_char c p = false) (split_on c s).
Proof.
  induction s as [|a s IH]; simpl; [repeat constructor|].
  destruct (Ascii.eqb a c) eqn:Ha; [constructor; [reflexivity|exact IH]|].
  destruct (split_on c s) as [|part parts]; [repeat constructor; simpl; rewrite Ha; reflexivity|].
  apply List.Forall_cons_iff in IH as [Hpart Hparts].
  constructor; [simpl; rewrite Ha; exact Hpart|exact Hparts].
Qed.

Lemma has_char_append c s t : has_char c (s +:+ t) = has_char c s || has_char c t.
Proof.
  induction s as [|a s IH]; [reflexivity|].
  rewrite append_cons. simpl. rewrite IH, orb_assoc. reflexivity.
Qed.

Lemma has_char_lstrip c z s : has_char c s = false -> has_char c (lstrip z s) = false.
Proof.
  induction s as [|a s IH]; simpl; [reflexivity|].
  intros Hs. destruct (Ascii.eqb a z); [|exact Hs].
  apply orb_false_iff in Hs as [_ Hs]. apply IH, Hs.
Qed.

Lemma normalise_part_no_char c s t :
  normalise_part s = Some t -> has_char c s = false -> has_char c t = false.
Proof.
  unfold normalise_part.
  destruct (init_last s) as [[init last]|] eqn:Hs; [|discriminate].
  intros H. injection H as <-. apply init_last_append in Hs. subst s.
  rewrite !has_char_append. intros H. apply orb_false_iff in H as [Hinit Hlast].
  rewrite (has_char_lstrip c _ init Hinit). exact Hlast.
Qed.

Lemma lstrip_head c s :
  lstrip c s = EmptyString
  \/ exists a s', lstrip c s = String a s' /\ a <> c.
Proof.
  induction s as [|a s IH]; simpl; [left; reflexivity|].
  destruct (Ascii.eqb_spec a c) as [_|Hne]; [exact IH|].
  right. exists a, s. split; [reflexivity|exact Hne].
Qed.

Lemma normalise_part_normal s t : normalise_part s = Some t -> normal_part t.
Proof.
  unfold normalise_part.
  destruct (init_last s) as [[init last]|]; [|discriminate].
  intros H. injection H as <-.
  destruct (lstrip_head "0"%char init) as [->|(a & s' & -> & Ha)].
  - rewrite append_nil. split; [discriminate|].
    intros rest H. injection H as _ <-. reflexivity.
  - rewrite append_cons. split; [discriminate|].
    intros rest H. injection H as H _. contradiction.
Qed.

Lemma normal_part_fixed t : normal_part t -> normalise_part t = Some t.
Proof.
  intros [Hne Hzero]. unfold normalise_part.
  destruct (init_last t) as [[init last]|] eqn:Ht;
    [|apply init_last_none in Ht; contradiction].
  apply init_last_append in Ht. subst t. f_equal. f_equal.
  destruct init as [|a init]; [reflexivity|]. simpl.
  destruct (Ascii.eqb_spec a "0"%char) as [->|_]; [|reflexivity].
  rewrite append_cons in Hzero. specialize (Hzero _ eq_refl).
  destruct init; discriminate.
Qed.

Lemma each_part_spec parts result :
  each_part parts = Some result ->
  length result = length parts
  /\ Forall normal_part result
  /\ forall c, Forall (fun p => has_char c p = false) parts ->
               Forall (fun p => has_char c p = false) result.
Proof.
  revert result. induction parts as [|s parts IH]; intros result; simpl.
  - intros H. injection H as <-. repeat split; constructor.
  - destruct (normalise_part s) as [t|] eqn:Hs; [|discriminate].
    destruct (each_part parts) as [ts|]; [|discriminate].
    intros H. injection H as <-.
    destruct (IH ts eq_refl) as (Hlen & Hnormal & Hchars).
    split; [simpl; rewrite Hlen; reflexivity|].
    split; [constructor; [exact (normalise_part_normal s t Hs)|exact Hnormal]|].
    intros c Hall. apply List.Forall_cons_iff in Hall as [Hc Hall].
    constructor; [exact (normalise_part_no_char c s t Hs Hc)|apply Hchars, Hall].
Qed.

Lemma each_part_fixed parts : Forall normal_part parts -> each_part parts = Some parts.
Proof.
  induction 1 as [|s parts Hs _ IH]; simpl; [reflexivity|].
  rewrite (normal_part_fixed s Hs), IH. reflexivity.
Qed.

Lemma normalise_identifier_parts id result :
  normalise_identifier id = Some result ->
  exists parts,
    each_part (split_on ":"%char id) = Some parts
    /\ result = join ":" parts
    /\ split_on ":"%char result = parts.
Proof.
  unfold normalise_identifier.
  destruct (each_part (split_on ":"%char id)) as [parts|] eqn:Hparts;
    [|discriminate].
  intros H. injection H as <-. exists parts. split; [reflexivity|].
  split; [reflexivity|].
  destruct (each_part_spec _ _ Hparts) as (Hlen & _ & Hchars).
  specialize (Hchars ":"%char (split_on_no_char ":"%char id)).
  destruct (split_on_cons ":"%char id) as (p0 & ps & Hid). rewrite Hid in Hlen.
  destruct parts as [|part parts]; [discriminate|].
  apply split_join, Hchars.
Qed.

(** X22. When [normalise_identifier] returns, the result has as many
    colon-separated parts as the identifier, none of them empty and none
    with a leading zero other than the part ['0'] itself. *)
Theorem normalise_identifier_result (id result : string) :
  normalise_identifier id = Some result ->
  length (split_on ":"%char result) = length (split_on ":"%char id)
  /\ Forall normal_part (split_on ":"%char result).
Proof.
  intros Hid.
  destruct (normalise_identifier_parts id result Hid) as (parts & Hparts & _ & ->).
  destruct (each_part_spec _ _ Hparts) as (Hlen & Hnormal & _).
  split; assumption.
Qed.

(** X23. [normalise_identifier] leaves an identifier as it is exactly when
    every part is already normal, and what it returns is such an
    identifier: normalising twice is normalising once. *)
Theorem normalise_identifier_fixed_points (id : string) :
  (normalise_identifier id = Some id <-> Forall normal_part (split_on ":"%char id))
  /\ forall result,
       normalise_identifier id = Some result ->
       normalise_identifier result = Some result.
Proof.
  assert (Hfixed : forall s,
            Forall normal_part (split_on ":"%char s) ->
            normalise_identifier s = Some s).
  { intros s Hs. unfold normalise_identifier.
    rewrite (each_part_fixed _ Hs). f_equal. apply (join_split ":"%char). }
  split.
  - split; [|apply Hfixed].
    intros Hid.
    destruct (normalise_identifier_parts id id Hid) as (parts & Hparts & _ & Hsplit).
    destruct (each_part_spec _ _ Hparts) as (_ & Hnormal & _).
    rewrite Hsplit. exact Hnormal.
  - intros result Hid. apply Hfixed.
    destruct (normalise_identifier_parts id result Hid) as (parts & Hparts & _ & ->).
    destruct (each_part_spec _ _ Hparts) as (_ & Hnormal & _). exact Hnormal.
Qed.

(** ** Instances *)

Lemma login_then_gate_witness :
  args login_request !! "key" = Some "k1"
  /\ dict_lookup test_user "error" = None
  /\ carries post_request "key" "k1"
  /\ carries post_request "session" (__session_key (fun k => k) "k1")
  /\ let '(answer, w1) :=
       authenticate (fun k => k) (fun _ => test_user) login_request new_world in
     answer = {| status := 200;
                 body := JObj [("session", JStr (__session_key (fun k => k) "k1"));
                               ("data", JObj test_user)] |}
     /\ db_file w1 = db_file new_world
     /\ __authenticated (fun k => k) echo_update post_request w1
        = echo_update (dict_get test_user "canUpdate" (JBool false)) post_request w1.
Proof.
  assert (H1 : args login_request !! "key" = Some "k1") by reflexivity.
  assert (H2 : dict_lookup test_user "error" = None) by reflexivity.
  assert (H3 : carries post_request "key" "k1")
    by (right; split; [reflexivity|eexists; split; reflexivity]).
  assert (H4 : carries post_request "session" (__session_key (fun k => k) "k1"))
    by (right; split; [reflexivity|eexists; split; reflexivity]).
  repeat (split; [assumption|]).
  exact (login_then_gate (fun k => k) (fun _ => test_user) "k1" login_request
           post_request new_world echo_update H1 H2 H3 H4).
Defined.

Lemma failed_login_creates_nothing_witness :
  (args post_request !! "key" = None
   \/ exists key, args post_request !! "key" = Some key
                  /\ dict_lookup test_user "error" <> None)
  /\ status (fst (authenticate (fun k => k) (fun _ => test_user)
                    post_request new_world)) = 403
  /\ snd (authenticate (fun k => k) (fun _ => test_user) post_request new_world)
     = new_world.
Proof.
  assert (H : args post_request !! "key" = None
              \/ exists key, args post_request !! "key" = Some key
                             /\ dict_lookup test_user "error" <> None)
    by (left; reflexivity).
  split; [exact H|].
  exact (failed_login_creates_nothing (fun k => k) (fun _ => test_user)
           post_request new_world H).
Defined.

Lemma gate_reads_by_method_witness :
  method misplaced_request = POST
  /\ args misplaced_request !! "key" = Some "k1"
  /\ args misplaced_request !! "session" = Some "k1"
  /\ (exists members,
        get_json misplaced_request = body_value (JObj members)
        /\ (dict_lookup members "key" = None
            \/ dict_lookup members "session" = None))
  /\ __authenticated (fun k => k) echo_update misplaced_request
       {| db_file := None; sessions := {["k1" := test_user]} |}
     = (forbidden, {| db_file := None; sessions := {["k1" := test_user]} |}).
Proof.
  assert (Hm : method misplaced_request = POST) by reflexivity.
  assert (Hbody : exists members,
            get_json misplaced_request = body_value (JObj members)
            /\ (dict_lookup members "key" = None
                \/ dict_lookup members "session" = None))
    by (eexists; split; [reflexivity|left; reflexivity]).
  split; [exact Hm|]. split; [reflexivity|]. split; [reflexivity|].
  split; [exact Hbody|].
  apply (gate_reads_by_method (fun k => k) echo_update misplaced_request).
  right. right. split; assumption.
Defined.

Lemma failed_post_leaves_file_witness :
  (exists result,
      body (fst (add_annotation_view "2023-05-01T10:00:00+00:00"
                   (Some full_disk_at_feature) feature_on_itemA (JBool true)
                   post_request new_world)) = JObj result
      /\ dict_lookup result "error" <> None)
  /\ db_file (snd (add_annotation_view "2023-05-01T10:00:00+00:00"
                     (Some full_disk_at_feature) feature_on_itemA (JBool true)
                     post_request new_world))
     = Some (contents (db_file new_world)).
Proof.
  assert (H : exists result,
            body (fst (add_annotation_view "2023-05-01T10:00:00+00:00"
                         (Some full_disk_at_feature) feature_on_itemA (JBool true)
                         post_request new_world)) = JObj result
            /\ dict_lookup result "error" <> None).
  { eexists. split; [reflexivity|]. vm_compute. discriminate. }
  split; [exact H|].
  apply (failed_post_leaves_file "2023-05-01T10:00:00+00:00"
           (Some full_disk_at_feature) feature_on_itemA (JBool true)
           post_request new_world).
  right. exact H.
Defined.

Lemma post_then_download_witness :
  body (fst (add_annotation_view "2023-05-01T10:00:00+00:00" None
               feature_on_itemA (JBool true) post_request new_world))
  = JObj [("annotationId", JNum 1)]
  /\ exists record before after,
       fst (download login_request new_world) = jsonify (JArr (map JObj before))
       /\ fst (download login_request
                 (snd (add_annotation_view "2023-05-01T10:00:00+00:00" None
                         feature_on_itemA (JBool true) post_request new_world)))
          = jsonify (JArr (map JObj after))
       /\ Permutation after (record :: before)
       /\ dict_lookup record "resource" = Some (JStr "map1")
       /\ dict_lookup record "item" = Some (JStr "itemA").
Proof.
  split; [reflexivity|].
  apply (post_then_download "2023-05-01T10:00:00+00:00" feature_on_itemA
           [("annotationId", JNum 1)] (JBool true) post_request login_request
           new_world 1 "map1" "itemA"); reflexivity.
Defined.

Lemma normalise_identifier_result_witness :
  normalise_identifier "UBERON:0000948" = Some "UBERON:948"
  /\ length (split_on ":"%char "UBERON:948")
     = length (split_on ":"%char "UBERON:0000948")
  /\ Forall normal_part (split_on ":"%char "UBERON:948").
Proof.
  split; [reflexivity|].
  apply (normalise_identifier_result "UBERON:0000948" "UBERON:948"). reflexivity.
Defined.
